(** * Virus alert: a shallow embedding of the daily-advance cycle

    This development embeds the crate [virus_alarm] ([src/individual.rs],
    [src/population.rs], [src/board.rs], [src/simulation.rs]) in Rocq and
    proves the properties of its specification.

    Conventions of the embedding:
    - a Rust [Vec<T>] is a [list T];
    - a [&mut self] method returning a value is a function returning the
      value together with the new [self];
    - a panic is [None] in an [option] result;
    - the random generator is an explicit infinite stream of draws
      ([Rng := nat -> nat]), consumed one draw per [gen_index] call. *)

From Stdlib Require Import String.
From Stdlib Require Import List Arith Lia Permutation Bool.
Import ListNotations.

(** ** Individuals ([src/individual.rs]) *)

Inductive Individual : Type :=
| Healthy
| Infected1
| Infected2
| Infected3
| Sick
| Immune.

Definition Individual_eq_dec (a b : Individual) : {a = b} + {a <> b}.
Proof. decide equality. Defined.

Definition individual_eqb (a b : Individual) : bool :=
  if Individual_eq_dec a b then true else false.

(** [Individual::iter()] (strum's [EnumIter]): the variants in declaration order. *)
Definition Individual_iter : list Individual :=
  [Healthy; Infected1; Infected2; Infected3; Sick; Immune].

Definition can_infect (self other : Individual) : bool :=
  match self with
  | Healthy | Sick | Immune => false
  | Infected1 | Infected2 | Infected3 =>
      match other with Healthy => true | _ => false end
  end.

(** [interacts_with]: either can infect the other. *)
Definition interacts_with (self other : Individual) : bool :=
  can_infect self other || can_infect other self.

(** ** Errors ([src/lib.rs], module [errors]) *)

Inductive ActionError : Type := NoHealthyLeft | NoImmuneLeft.

Inductive BuildingError : Type := Full | SickNotAllowed.

(** Rust's [Result<T, E>]. *)
Inductive result (T E : Type) : Type :=
| Ok (t : T)
| Err (e : E).
Arguments Ok {T E} t.
Arguments Err {T E} e.

(** The random generator: an infinite stream of raw draws. *)
Definition Rng : Type := nat -> nat.

(** [rand::seq::gen_index(rng, ubound)]: one draw, reduced to [0..ubound). *)
Definition gen_index (rng : Rng) (ubound : nat) : nat * Rng :=
  (rng 0 mod ubound, fun k => rng (S k)).

(** Slice indexing assignment [v[n] = x] (in range in every use below). *)
Fixpoint set_nth {A : Type} (l : list A) (n : nat) (x : A) : list A :=
  match l, n with
  | [], _ => []
  | _ :: t, 0 => x :: t
  | h :: t, S m => h :: set_nth t m x
  end.

(** [<[T]>::swap(i, j)]. *)
Definition swap (l : list Individual) (i j : nat) : list Individual :=
  let a := nth i l Healthy in
  let b := nth j l Healthy in
  set_nth (set_nth l i b) j a.

(** [SliceRandom::shuffle] of the [rand] crate:
    [for i in (1..len).rev() { self.swap(i, gen_index(rng, i + 1)) }].
    [shuffle_loop i] runs the iterations [i, i-1, ..., 1]. *)
Fixpoint shuffle_loop (i : nat) (l : list Individual) (rng : Rng)
  : list Individual * Rng :=
  match i with
  | 0 => (l, rng)
  | S k =>
      let '(j, rng') := gen_index rng (S (S k)) in
      shuffle_loop k (swap l (S k) j) rng'
  end.

Definition slice_shuffle (l : list Individual) (rng : Rng) : list Individual * Rng :=
  shuffle_loop (length l - 1) l rng.

(** ** Population ([src/population.rs]) *)

Module Population.

Record Population : Type := mk {
  population : list Individual;
  counter : nat
}.

(** The loop of [immunize] / [reverse_immunize]: replace the first [from]
    by [to]; [None] when the loop ends without finding one. *)
Fixpoint replace_first (from to : Individual) (l : list Individual)
  : option (list Individual) :=
  match l with
  | [] => None
  | i :: t =>
      if individual_eqb i from then Some (to :: t)
      else option_map (cons i) (replace_first from to t)
  end.

Definition immunize (self : Population) : result unit ActionError * Population :=
  match replace_first Healthy Immune (population self) with
  | Some v => (Ok tt, mk v (counter self))
  | None => (Err NoHealthyLeft, self)
  end.

Definition reverse_immunize (self : Population) : result unit ActionError * Population :=
  match replace_first Immune Healthy (population self) with
  | Some v => (Ok tt, mk v (counter self))
  | None => (Err NoImmuneLeft, self)
  end.

Definition len (self : Population) : nat := length (population self).

(** [update]: [assert_eq!(self.len(), new_population.len())] panics ([None]). *)
Definition update (self : Population) (new_population : list Individual)
  : option Population :=
  if Nat.eqb (len self) (length new_population)
  then Some (mk new_population (counter self))
  else None.

Definition shuffle (self : Population) (rng : Rng) : Population * Rng :=
  let '(v, rng') := slice_shuffle (population self) rng in
  (mk v 0, rng').

Definition counting (self : Population) (query : Individual) : nat :=
  count_occ Individual_eq_dec (population self) query.

(** [Population::from(vec)]. *)
Definition from (v : list Individual) : Population := mk v 0.

(** [impl Iterator for Population]: [next]. *)
Definition next (self : Population) : option Individual * Population :=
  if counter self <? len self
  then (Some (nth (counter self) (population self) Healthy),
        mk (population self) (S (counter self)))
  else (None, self).

(** [n] successive calls of [next]. *)
Fixpoint next_n (n : nat) (self : Population) : list (option Individual) * Population :=
  match n with
  | 0 => ([], self)
  | S m =>
      let '(o, p) := next self in
      let '(os, p') := next_n m p in
      (o :: os, p')
  end.

(** Draining the iterator, as [Extend::extend(iter)] does: [fuel] bounds the
    number of calls and is always taken at least [len self]. *)
Fixpoint collect (fuel : nat) (self : Population) : list Individual :=
  match fuel with
  | 0 => []
  | S f =>
      match next self with
      | (Some i, p) => i :: collect f p
      | (None, _) => []
      end
  end.

(** [is_empty]. *)
Definition is_empty (self : Population) : bool :=
  match population self with [] => true | _ => false end.

(** A [HashMap<Individual, usize>], as an association list. *)
Definition CountMap : Type := list (Individual * nat).

(** [HashMap::get]. *)
Fixpoint hm_get (hm : CountMap) (k : Individual) : option nat :=
  match hm with
  | [] => None
  | (k', v) :: t => if individual_eqb k' k then Some v else hm_get t k
  end.

(** [*hm.entry(k).or_insert(0) += 1]. *)
Fixpoint hm_incr (hm : CountMap) (k : Individual) : CountMap :=
  match hm with
  | [] => [(k, 1)]
  | (k', v) :: t => if individual_eqb k' k then (k', S v) :: t else (k', v) :: hm_incr t k
  end.

(** [counting_all]: every state seeded at zero, then one increment per
    individual. *)
Definition counting_all (self : Population) : CountMap :=
  fold_left hm_incr (population self) (map (fun i => (i, 0)) Individual_iter).

End Population.

(** ** Buildings ([src/building.rs], not among the sources) *)

Module Building.

(** Modelled from the spec: the spreading mode of [src/building.rs], an
    ordered tag ([Ord] is needed by [Board::new]); a variant is represented
    by its discriminant. *)
Definition Spreading : Type := nat.

(** Modelled from the spec: the [Building] of [src/building.rs], a
    capacity-bounded, open/closed container with a name and a spreading mode;
    [contents] lists the individuals it holds. *)
Record Building : Type := mk {
  name : String.string;
  capacity : nat;
  contents : list Individual;
  open : bool;
  spreading : Spreading
}.

(** Modelled from the spec: [is_full()]. *)
Definition is_full (self : Building) : bool :=
  capacity self <=? length (contents self).

(** Modelled from the spec: [is_open()]. *)
Definition is_open (self : Building) : bool := open self.

(** Modelled from the spec: [try_push(individual) -> Result<(), Full>],
    which fails if the building is full. *)
Definition try_push (self : Building) (i : Individual) : result Building BuildingError :=
  if is_full self then Err Full
  else Ok (mk (name self) (capacity self) (contents self ++ [i]) (open self) (spreading self)).

(** Modelled from the spec: [empty()] drains all contents and leaves the
    building empty. *)
Definition empty (self : Building) : list Individual * Building :=
  (contents self, mk (name self) (capacity self) [] (open self) (spreading self)).

(** Modelled from the spec: [BuildingBuilder::new(name).with_size(cols, rows)
    .with_spreading(s).and_is_open().build()], an empty open building of
    [cols * rows] cells. *)
Definition build (name : String.string) (cols rows : nat) (s : Spreading) : Building :=
  mk name (cols * rows) [] true s.

(** Modelled from the spec: [toggle()] flips the open flag. *)
Definition toggle (self : Building) : Building :=
  mk (name self) (capacity self) (contents self) (negb (open self)) (spreading self).

(** Modelled from the spec: [open()] opens the building. *)
Definition open' (self : Building) : Building :=
  mk (name self) (capacity self) (contents self) true (spreading self).

(** Modelled from the spec: [close()] closes the building. *)
Definition close (self : Building) : Building :=
  mk (name self) (capacity self) (contents self) false (spreading self).

(** Modelled from the spec: [set_spreading(mode)]. *)
Definition set_spreading (self : Building) (s : Spreading) : Building :=
  mk (name self) (capacity self) (contents self) (open self) s.

End Building.

(** ** Recording ([src/recording.rs], not among the sources) *)

(** Modelled from the spec: a [CountingTable] maps each health state to its
    sequence of counts, one entry per day. *)
Definition CountingTable : Type := list (Individual * list nat).

(** Modelled from the spec: [CountingTable::inner().get(&state)]. *)
Definition ct_get (ct : CountingTable) (s : Individual) : option (list nat) :=
  match find (fun e => individual_eqb (fst e) s) ct with
  | Some (_, v) => Some v
  | None => None
  end.

(** Modelled from the spec: [CountingTable::days()], the length of the
    count sequences (all of equal length). *)
Definition ct_days (ct : CountingTable) : nat :=
  match ct with
  | [] => 0
  | (_, v) :: _ => length v
  end.

Module Recording.

Record Recording : Type := mk { counting_table : CountingTable }.

(** Modelled from the spec: [Recording::new(population, buildings)] starts
    the counting table with one column, the initial count of every state. *)
Definition new (p : Population.Population) (bs : list Building.Building) : Recording :=
  mk (map (fun s => (s, [Population.counting p s])) Individual_iter).

End Recording.

(** ** Board ([src/board.rs]) *)

Module Board.

Import Building.

Record Board : Type := mk {
  population : Population.Population;
  buildings : list Building;
  inactive : list Individual;
  recording : Recording.Recording
}.

Definition set_population (self : Board) (p : Population.Population) : Board :=
  mk p (buildings self) (inactive self) (recording self).
Definition set_buildings (self : Board) (bs : list Building) : Board :=
  mk (population self) bs (inactive self) (recording self).
Definition set_inactive (self : Board) (l : list Individual) : Board :=
  mk (population self) (buildings self) l (recording self).

(** [Iterator::min] and [Iterator::max] on spreading modes. *)
Definition iter_min (l : list Spreading) : option Spreading :=
  match l with [] => None | x :: t => Some (fold_left Nat.min t x) end.
Definition iter_max (l : list Spreading) : option Spreading :=
  match l with [] => None | x :: t => Some (fold_left Nat.max t x) end.

Definition option_eqb (a b : option Spreading) : bool :=
  match a, b with
  | None, None => true
  | Some x, Some y => Nat.eqb x y
  | _, _ => false
  end.

(** [Board::new]: [assert_eq!(min spreading, max spreading)], then the
    fields of [Board::default()] ([inactive] empty) for the rest. *)
Definition new (population : Population.Population) (buildings : list Building)
  : option Board :=
  if option_eqb (iter_min (map spreading buildings)) (iter_max (map spreading buildings))
  then Some (mk population buildings [] (Recording.new population buildings))
  else None.

(** [Board::spreading]: [self.buildings()[0].spreading()]. *)
Definition spreading (self : Board) : option Spreading :=
  match nth_error (buildings self) 0 with
  | Some b => Some (Building.spreading b)
  | None => None
  end.

(** The [while] loop of [visit_building]; [fuel] bounds its iterations
    (each one draws from the population or leaves the loop). *)
Fixpoint visit_building_loop (fuel index : nat) (self : Board) : option Board :=
  match fuel with
  | 0 => Some self
  | S f =>
      match nth_error (buildings self) index with
      | None => None
      | Some bd =>
          if negb (is_full bd) && is_open bd then
            match Population.next (population self) with
            | (Some Sick, p) =>
                visit_building_loop f index
                  (set_inactive (set_population self p) (inactive self ++ [Sick]))
            | (Some i, p) =>
                match try_push bd i with
                | Ok bd' =>
                    visit_building_loop f index
                      (set_buildings (set_population self p) (set_nth (buildings self) index bd'))
                | Err _ => None (* .expect(...) panics *)
                end
            | (None, p) => Some (set_population self p)
            end
          else Some self
      end
  end.

Definition visit_building (index : nat) (self : Board) : option Board :=
  visit_building_loop (S (Population.len (population self))) index self.

(** [for index in 0..self.buildings.len() { self.visit_building(index); }] *)
Fixpoint visit_indices (idx : list nat) (self : Board) : option Board :=
  match idx with
  | [] => Some self
  | i :: r =>
      match visit_building i self with
      | Some b => visit_indices r b
      | None => None
      end
  end.

(** [visit]: shuffle, visit every building, then
    [self.inactive.extend(self.population.clone())]. *)
Definition visit (self : Board) (rng : Rng) : option (Board * Rng) :=
  let '(p, rng') := Population.shuffle (population self) rng in
  match visit_indices (seq 0 (length (buildings self))) (set_population self p) with
  | Some b =>
      Some (set_inactive b (inactive b ++
              Population.collect (Population.len (population b)) (population b)), rng')
  | None => None
  end.

(** The disease clock of an individual at home. *)
Definition step (i : Individual) : Individual :=
  match i with
  | Infected1 => Infected2
  | Infected2 => Infected3
  | Infected3 => Sick
  | _ => i
  end.

(** Draining every building, in order ([building.empty()]). *)
Fixpoint empty_all (bs : list Building) : list Individual * list Building :=
  match bs with
  | [] => ([], [])
  | b :: t =>
      let '(c, b') := empty b in
      let '(cs, t') := empty_all t in
      (c ++ cs, b' :: t')
  end.

(** [go_home]: returns the newly infected count and the new board. *)
Definition go_home (self : Board) : nat * Board :=
  let '(new_vec, bs') := empty_all (buildings self) in
  let newly_infected := count_occ Individual_eq_dec new_vec Infected1 in
  (newly_infected,
   mk (Population.from (new_vec ++ inactive self)) bs' [] (recording self)).

Section Day.

(** Modelled from the spec: the opaque one-day contagion step
    [Building::propagate()] of [src/building.rs]. *)
Variable building_propagate : Building -> Building.

(** Modelled from the spec: [Recording::register(newly_infected, buildings)]
    of [src/recording.rs], appending one day's snapshot. *)
Variable register : nat -> list Building -> Recording.Recording -> Recording.Recording.

Definition propagate (self : Board) : Board :=
  mk (population self) (map building_propagate (buildings self))
     (map step (inactive self)) (recording self).

Definition advance_population (self : Board) (rng : Rng) : option (nat * Board * Rng) :=
  match visit self rng with
  | Some (b, rng') =>
      let '(n, b') := go_home (propagate b) in Some (n, b', rng')
  | None => None
  end.

Definition advance (self : Board) (rng : Rng) : option (Board * Rng) :=
  match advance_population self rng with
  | Some (n, b, rng') =>
      Some (mk (population b) (buildings b) (inactive b)
               (register n (buildings b) (recording b)), rng')
  | None => None
  end.

Fixpoint advance_many (num_stages : nat) (self : Board) (rng : Rng) : option (Board * Rng) :=
  match num_stages with
  | 0 => Some (self, rng)
  | S n =>
      match advance self rng with
      | Some (b, rng') => advance_many n b rng'
      | None => None
      end
  end.

End Day.

(** [toggle], [close], [open]: apply the building's operation to every
    building whose name equals [name]. *)
Definition toggle (self : Board) (name : String.string) : Board :=
  set_buildings self (map (fun bd => if String.eqb (Building.name bd) name
                                     then Building.toggle bd else bd) (buildings self)).

Definition close (self : Board) (name : String.string) : Board :=
  set_buildings self (map (fun bd => if String.eqb (Building.name bd) name
                                     then Building.close bd else bd) (buildings self)).

Definition open (self : Board) (name : String.string) : Board :=
  set_buildings self (map (fun bd => if String.eqb (Building.name bd) name
                                     then Building.open' bd else bd) (buildings self)).

Section SetSpreading.

(** Modelled from the spec: [Recording::set_spreading(mode)] of
    [src/recording.rs]. *)
Variable recording_set_spreading : Recording.Recording -> Spreading -> Recording.Recording.

(** [set_spreading]: every building, then the recording. *)
Definition set_spreading (self : Board) (new_spreading : Spreading) : Board :=
  mk (population self) (map (fun bd => Building.set_spreading bd new_spreading) (buildings self))
     (inactive self) (recording_set_spreading (recording self) new_spreading).

End SetSpreading.

Definition counting_table (self : Board) : CountingTable :=
  Recording.counting_table (recording self).

End Board.

(** ** Simulation and report ([src/simulation.rs]) *)

Module Simulation.

Record ReportPlan : Type := mkPlan { num_simulations : nat; days : nat }.

Record Simulation : Type := mk { board : Board.Board; report_plan : ReportPlan }.

Record Report : Type := mkReport { counting_tables : list CountingTable }.

(** An [average::Variance] accumulator, represented by the samples collected
    into it ([Variance::new()] is the empty one). *)
Definition Variance : Type := list nat.

Fixpoint all_some {A : Type} (l : list (option A)) : option (list A) :=
  match l with
  | [] => Some []
  | None :: _ => None
  | Some x :: t =>
      match all_some t with Some r => Some (x :: r) | None => None end
  end.

Section Run.

Variable building_propagate : Building.Building -> Building.Building.
Variable register : nat -> list Building.Building -> Recording.Recording -> Recording.Recording.

(** The loop of [run]: [for _ in 0..num_simulations { clone; advance_many(days); push }]. *)
Fixpoint run_loop (k : nat) (template : Board.Board) (days : nat) (rng : Rng)
  (acc : list CountingTable) : option (list CountingTable * Rng) :=
  match k with
  | 0 => Some (acc, rng)
  | S k' =>
      match Board.advance_many building_propagate register days template rng with
      | Some (b, rng') => run_loop k' template days rng' (acc ++ [Board.counting_table b])
      | None => None
      end
  end.

Definition run (self : Simulation) (rng : Rng) : option (Report * Rng) :=
  match run_loop (num_simulations (report_plan self)) (board self)
          (days (report_plan self)) rng [] with
  | Some (cts, rng') => Some (mkReport cts, rng')
  | None => None
  end.

End Run.

(** Modelled from the spec: [Array2::from(&CountingTable)] indexed by
    [[row, col]], one row per state in [Individual::iter()] order; an index
    out of bounds panics ([None]). *)
Definition ct_cell (ct : CountingTable) (row col : nat) : option nat :=
  match ct_get ct (nth row Individual_iter Healthy) with
  | Some v => nth_error v col
  | None => None
  end.

(** [average_counting_table]; an [Array2] of shape [(rows, cols)] is the
    list of its rows. *)
Definition average_counting_table (self : Report) : option (list (list Variance)) :=
  let individual_variants_num := length Individual_iter in
  match counting_tables self with
  | [] => Some (repeat [] individual_variants_num)
  | ct0 :: _ =>
      let days := ct_days ct0 in
      all_some (map (fun row =>
        all_some (map (fun col =>
          all_some (map (fun ct => ct_cell ct row col) (counting_tables self)))
          (seq 0 days)))
        (seq 0 individual_variants_num))
  end.

Definition healthy (self : Report) : list (list nat) :=
  flat_map (fun ct => match ct_get ct Healthy with Some v => [v] | None => [] end)
    (counting_tables self).

(** [healthy_transpose]: [for day in 0..self.counting_tables()[0].days()];
    both indexings panic out of bounds. *)
Definition healthy_transpose (self : Report) : option (list (list nat)) :=
  let healthy_all := healthy self in
  match nth_error (counting_tables self) 0 with
  | None => None
  | Some ct0 =>
      all_some (map (fun day => all_some (map (fun r => nth_error r day) healthy_all))
                 (seq 0 (ct_days ct0)))
  end.

(** [average_healthy]: the same loop, collecting into [Variance]s. *)
Definition average_healthy (self : Report) : option (list Variance) :=
  let healthy_all := healthy self in
  match nth_error (counting_tables self) 0 with
  | None => None
  | Some ct0 =>
      all_some (map (fun day => all_some (map (fun r => nth_error r day) healthy_all))
                 (seq 0 (ct_days ct0)))
  end.

(** [Option::expect]: panics ([None]) on an empty vector. *)
Definition last_opt (v : list nat) : option nat :=
  match v with [] => None | x :: t => Some (last t x) end.

(** [healthy_last]: [healthy_realization.last().expect("Empty vector!")]. *)
Definition healthy_last (self : Report) : option (list nat) :=
  all_some (map last_opt (healthy self)).

End Simulation.

(** ** Builders *)

Record BoardBuilder : Type := mkBoardBuilder {
  healthy : nat; infected1 : nat; infected2 : nat; infected3 : nat;
  sick : nat; immune : nat;
  bb_buildings : list (nat * nat);
  bb_spreading : Building.Spreading
}.

(** [BoardBuilder::build]. *)
Definition BoardBuilder_build (self : BoardBuilder) : option Board.Board :=
  let population_vec :=
    repeat Healthy (healthy self) ++ repeat Infected1 (infected1 self) ++
    repeat Infected2 (infected2 self) ++ repeat Infected3 (infected3 self) ++
    repeat Sick (sick self) ++ repeat Immune (immune self) in
  let buildings :=
    map (fun '(cols, rows) => Building.build "Defult"%string cols rows (bb_spreading self))
      (bb_buildings self) in
  Board.new (Population.from population_vec) buildings.

(** [SimulationBuilder::build]. *)
Definition SimulationBuilder_build (board_builder : BoardBuilder)
  (report_plan : Simulation.ReportPlan) : option Simulation.Simulation :=
  match BoardBuilder_build board_builder with
  | Some board => Some (Simulation.mk board report_plan)
  | None => None
  end.

(** The spec's disease clock at home, in its own words: Infected1 becomes
    Infected2, Infected2 becomes Infected3, Infected3 becomes Sick, and
    Healthy, Sick and Immune are unchanged. *)
Definition one_stage (x y : Individual) : Prop :=
  (x = Infected1 /\ y = Infected2) \/
  (x = Infected2 /\ y = Infected3) \/
  (x = Infected3 /\ y = Sick) \/
  ((x = Healthy \/ x = Sick \/ x = Immune) /\ y = x).

(** Measures used to state what one day does to the board. *)
Definition sum_contents (f : list Individual -> nat) (bs : list Building.Building) : nat :=
  list_sum (map (fun bd => f (Building.contents bd)) bs).

Definition sick_count (l : list Individual) : nat := count_occ Individual_eq_dec l Sick.

(** The individuals the sampling cursor has not reached yet. *)
Definition remaining (p : Population.Population) : list Individual :=
  skipn (Population.counter p) (Population.population p).

(** What one iteration, and so the whole [while] loop, of [visit_building]
    keeps: the buildings, the drawn sequence, the number of individuals held
    by the inactive set, the buildings and the undrawn rest, the Sick count of
    every building, and the Sick count of the inactive set and the undrawn rest. *)
Definition visit_inv (b b' : Board.Board) : Prop :=
  length (Board.buildings b') = length (Board.buildings b) /\
  Population.population (Board.population b') = Population.population (Board.population b) /\
  length (Board.inactive b') + sum_contents (@length _) (Board.buildings b') +
    length (remaining (Board.population b')) =
  length (Board.inactive b) + sum_contents (@length _) (Board.buildings b) +
    length (remaining (Board.population b)) /\
  map (fun bd => sick_count (Building.contents bd)) (Board.buildings b') =
    map (fun bd => sick_count (Building.contents bd)) (Board.buildings b) /\
  sick_count (Board.inactive b') + sick_count (remaining (Board.population b')) =
    sick_count (Board.inactive b) + sick_count (remaining (Board.population b)).

(** Everything of a building but its contents. *)
Definition building_shape (bd : Building.Building)
  : String.string * nat * bool * Building.Spreading :=
  (Building.name bd, Building.capacity bd, Building.open bd, Building.spreading bd).

(** What the visiting loop keeps of the buildings: all but their contents;
    the contents of closed buildings; and the capacity bound. *)
Definition shape_inv (b b' : Board.Board) : Prop :=
  map building_shape (Board.buildings b') = map building_shape (Board.buildings b) /\
  (forall j bd, nth_error (Board.buildings b) j = Some bd -> Building.open bd = false ->
                nth_error (Board.buildings b') j = Some bd) /\
  (Forall (fun bd => length (Building.contents bd) <= Building.capacity bd) (Board.buildings b) ->
   Forall (fun bd => length (Building.contents bd) <= Building.capacity bd) (Board.buildings b')).

(** A sample one-day contagion step for a building, used to instantiate the
    opaque [Building::propagate()]: every Healthy individual sharing the
    building with one who can infect it becomes Infected1. *)
Definition contagion_example (bd : Building.Building) : Building.Building :=
  let cs := Building.contents bd in
  Building.mk (Building.name bd) (Building.capacity bd)
    (map (fun i => if existsb (fun j => can_infect j i) cs then Infected1 else i) cs)
    (Building.open bd) (Building.spreading bd).

(** A board whose only building already holds a Sick individual when the
    day starts (as [Board::new] accepts, cf. the [propagate] test of
    [src/board.rs], which builds a board with occupied buildings). *)
Definition occupied_board : Board.Board :=
  Board.mk (Population.from [Healthy])
    [Building.mk "Hospital"%string 2 [Sick] true 0] []
    (Recording.new (Population.from [Healthy]) []).

(** A board of three individuals with one empty building of capacity 2. *)
Definition small_board : Board.Board :=
  Board.mk (Population.from [Infected1; Healthy; Sick])
    [Building.build "Bakery"%string 1 2 0] []
    (Recording.new (Population.from [Infected1; Healthy; Sick]) []).

(** ** Sanity checks against the tests of the crate *)

Example healthy_test :
  Simulation.healthy (Simulation.mkReport
    [map (fun i => (i, [0; 0])) Individual_iter; map (fun i => (i, [1; 2])) Individual_iter])
  = [[0; 0]; [1; 2]].
Proof. reflexivity. Qed.

Example healthy_transpose_test :
  Simulation.healthy_transpose (Simulation.mkReport
    [map (fun i => (i, [0; 0])) Individual_iter; map (fun i => (i, [1; 2])) Individual_iter])
  = Some [[0; 1]; [0; 2]].
Proof. reflexivity. Qed.

Example population_shuffle_perm :
  fst (Population.shuffle (Population.mk [Healthy; Sick; Immune; Infected1] 3) (fun k => k + 5))
  = Population.mk [Immune; Infected1; Healthy; Sick] 0.
Proof. vm_compute. reflexivity. Qed.

(** [advance_population1]: Healthy, Sick and Immune in a 2x2 building give
    no newly infected individual. *)
Example advance_population1_test :
  option_map (fun '(n, _, _) => n)
    (Board.advance_population contagion_example
       (Board.mk (Population.from [Healthy; Sick; Immune])
          [Building.build "My bulding"%string 2 2 0] []
          (Recording.new (Population.from [Healthy; Sick; Immune]) []))
       (fun k => k))
  = Some 0.
Proof. vm_compute. reflexivity. Qed.

(** [propagate]: with the building full, both Infected1 go home and move on
    to Infected2. *)
Example propagate_test :
  option_map (fun '(b, _) => Board.inactive (Board.propagate contagion_example b))
    (Board.visit
       (Board.mk (Population.from [Infected1; Infected1])
          [Building.mk "B"%string 2 [Healthy; Infected1] true 0] []
          (Recording.new (Population.from [Infected1; Infected1]) []))
       (fun k => k))
  = Some [Infected2; Infected2].
Proof. vm_compute. reflexivity. Qed.

(** ** Lemmas on lists *)

Lemma individual_eqb_spec (a b : Individual) : individual_eqb a b = true <-> a = b.
Proof. unfold individual_eqb. destruct (Individual_eq_dec a b); split; congruence. Qed.

Lemma set_nth_length {A : Type} (l : list A) n x : length (set_nth l n x) = length l.
Proof.
  revert n; induction l as [|h t IH]; intros [|n]; simpl; auto.
Qed.

Lemma nth_set_nth {A : Type} (l : list A) i j x d :
  i < length l -> nth j (set_nth l i x) d = if Nat.eqb i j then x else nth j l d.
Proof.
  revert i j; induction l as [|h t IH]; intros i j Hi; simpl in Hi; [lia|].
  destruct i as [|i], j as [|j]; simpl; auto.
  apply IH; lia.
Qed.

(** Overwriting one cell exchanges the old value for the new one. *)
Lemma set_nth_perm {A : Type} (l : list A) i x d :
  i < length l -> Permutation (nth i l d :: set_nth l i x) (x :: l).
Proof.
  revert i; induction l as [|h t IH]; intros i Hi; simpl in Hi; [lia|].
  destruct i as [|i]; simpl.
  - apply perm_swap.
  - eapply perm_trans; [apply perm_swap|].
    eapply perm_trans; [apply perm_skip, IH; lia|].
    apply perm_swap.
Qed.

Lemma swap_perm (l : list Individual) i j :
  i < length l -> j < length l -> Permutation (swap l i j) l.
Proof.
  intros Hi Hj. unfold swap.
  set (a := nth i l Healthy). set (b := nth j l Healthy).
  set (l1 := set_nth l i b).
  assert (Hl1 : length l1 = length l) by apply set_nth_length.
  assert (Hb : nth j l1 Healthy = b).
  { unfold l1. rewrite nth_set_nth by exact Hi.
    destruct (Nat.eqb_spec i j); subst; reflexivity. }
  assert (P1 : Permutation (b :: set_nth l1 j a) (a :: l1)).
  { rewrite <- Hb at 1. apply set_nth_perm. lia. }
  assert (P2 : Permutation (a :: l1) (b :: l)) by (apply set_nth_perm; exact Hi).
  apply Permutation_cons_inv with (a := b).
  eapply perm_trans; [exact P1|exact P2].
Qed.

Lemma swap_length (l : list Individual) i j : length (swap l i j) = length l.
Proof. unfold swap. rewrite !set_nth_length. reflexivity. Qed.

Lemma shuffle_loop_perm (i : nat) (l : list Individual) (rng : Rng) :
  i < length l \/ i = 0 -> Permutation (fst (shuffle_loop i l rng)) l.
Proof.
  revert l rng; induction i as [|k IH]; intros l rng Hi; [reflexivity|].
  destruct Hi as [Hi|Hi]; [|discriminate].
  change (shuffle_loop (S k) l rng)
    with (shuffle_loop k (swap l (S k) (rng 0 mod S (S k))) (fun n => rng (S n))).
  assert (Hj : rng 0 mod S (S k) < S (S k)) by (apply Nat.mod_upper_bound; lia).
  eapply perm_trans; [apply IH|apply swap_perm; lia].
  left. rewrite swap_length; lia.
Qed.

Lemma slice_shuffle_perm (l : list Individual) (rng : Rng) :
  Permutation (fst (slice_shuffle l rng)) l.
Proof.
  unfold slice_shuffle. apply shuffle_loop_perm.
  destruct l; simpl; [right; reflexivity|left; lia].
Qed.

Lemma replace_first_none (from to : Individual) (l : list Individual) :
  Population.replace_first from to l = None <-> ~ In from l.
Proof.
  induction l as [|i t IH]; simpl; [tauto|].
  destruct (individual_eqb i from) eqn:E.
  - apply individual_eqb_spec in E. subst. split; [discriminate|tauto].
  - assert (i <> from) by (intro; subst; rewrite (proj2 (individual_eqb_spec _ _) eq_refl) in E; discriminate).
    destruct (Population.replace_first from to t); simpl; split; intro H'.
    + discriminate.
    + exfalso. assert (Hn : ~ In from t) by tauto. apply IH in Hn. discriminate.
    + intros [|]; [congruence|]. apply IH; auto.
    + reflexivity.
Qed.

Lemma replace_first_some (from to : Individual) (l v : list Individual) :
  Population.replace_first from to l = Some v ->
  exists l1 l2, l = l1 ++ from :: l2 /\ ~ In from l1 /\ v = l1 ++ to :: l2.
Proof.
  revert v; induction l as [|i t IH]; intros v H; simpl in H; [discriminate|].
  destruct (individual_eqb i from) eqn:E.
  - apply individual_eqb_spec in E. subst. injection H as <-.
    exists [], t. simpl. auto.
  - destruct (Population.replace_first from to t) as [w|] eqn:Ew; simpl in H; [|discriminate].
    injection H as <-. destruct (IH w eq_refl) as (l1 & l2 & -> & Hn & ->).
    exists (i :: l1), l2. simpl. repeat split; auto.
    intros [Hi|Hi]; [subst; rewrite (proj2 (individual_eqb_spec _ _) eq_refl) in E; discriminate|auto].
Qed.

Lemma count_occ_middle (l1 l2 : list Individual) (a x : Individual) :
  count_occ Individual_eq_dec (l1 ++ a :: l2) x =
  count_occ Individual_eq_dec (l1 ++ l2) x + (if Individual_eq_dec a x then 1 else 0).
Proof.
  rewrite !count_occ_app. simpl. destruct (Individual_eq_dec a x); lia.
Qed.

Lemma skipn_nth_cons {A : Type} (l : list A) c d :
  c < length l -> skipn c l = nth c l d :: skipn (S c) l.
Proof.
  revert c; induction l as [|h t IH]; intros c Hc; simpl in Hc; [lia|].
  destruct c as [|c]; [reflexivity|].
  simpl. apply IH. lia.
Qed.

Lemma next_n_spec (n : nat) (p : Population.Population) :
  Population.counter p + n = Population.len p ->
  Population.next_n n p =
    (map Some (skipn (Population.counter p) (Population.population p)),
     Population.mk (Population.population p) (Population.len p)).
Proof.
  revert p; induction n as [|n IH]; intros [v c] H; unfold Population.len in *; simpl in *.
  - rewrite Nat.add_0_r in H. subst c.
    rewrite skipn_all. reflexivity.
  - unfold Population.next, Population.len in *; simpl in *.
    assert (Hc : c < length v) by lia.
    apply Nat.ltb_lt in Hc as Hb. rewrite Hb.
    rewrite (IH (Population.mk v (S c))) by (simpl; unfold Population.len; simpl; lia).
    simpl. rewrite (skipn_nth_cons v c Healthy) by lia. reflexivity.
Qed.

(** ** Claims on [Population] *)

(** C5: after [shuffle(rng)], the next [len] calls of [next()] return the
    elements of the population, each exactly once (a permutation of its
    content), and the following call returns [None]. *)
Theorem shuffle_draws_permutation (p : Population.Population) (rng : Rng) :
  let p' := fst (Population.shuffle p rng) in
  let '(xs, p'') := Population.next_n (Population.len p) p' in
  (exists ys, xs = map Some ys /\ Permutation ys (Population.population p)) /\
  fst (Population.next p'') = None.
Proof.
  destruct p as [v c]. unfold Population.shuffle, Population.len. simpl.
  pose proof (slice_shuffle_perm v rng) as Hp.
  destruct (slice_shuffle v rng) as [w r]. simpl in *.
  pose proof (Permutation_length Hp) as Hl.
  rewrite <- Hl.
  rewrite (next_n_spec (length w) (Population.mk w 0)) by reflexivity.
  simpl. split.
  - exists w. split; [reflexivity|exact Hp].
  - unfold Population.next, Population.len. simpl. rewrite Nat.ltb_irrefl. reflexivity.
Qed.

(** C6: [immunize()] fails with [NoHealthyLeft] exactly when there is no
    Healthy individual, and then leaves the population unchanged; otherwise
    it turns the first Healthy into Immune and changes nothing else. *)
Theorem immunize_spec (p : Population.Population) :
  (fst (Population.immunize p) = Err NoHealthyLeft <->
     ~ In Healthy (Population.population p)) /\
  (~ In Healthy (Population.population p) -> snd (Population.immunize p) = p) /\
  (In Healthy (Population.population p) ->
     exists l1 l2,
       Population.population p = l1 ++ Healthy :: l2 /\ ~ In Healthy l1 /\
       Population.immunize p =
         (Ok tt, Population.mk (l1 ++ Immune :: l2) (Population.counter p))).
Proof.
  unfold Population.immunize.
  pose proof (replace_first_none Healthy Immune (Population.population p)) as Hn.
  destruct (Population.replace_first Healthy Immune (Population.population p)) as [v|] eqn:E.
  - assert (Hin : In Healthy (Population.population p)).
    { destruct (In_dec Individual_eq_dec Healthy (Population.population p)); auto.
      apply Hn in n. discriminate. }
    destruct (replace_first_some _ _ _ _ E) as (l1 & l2 & Hp & Hl1 & ->).
    simpl. repeat split; try discriminate; try tauto.
    intros _. exists l1, l2. auto.
  - simpl. pose proof (proj1 Hn eq_refl). repeat split; tauto.
Qed.

Lemma immunize_spec_witness :
  In Healthy [Immune; Healthy; Healthy] /\
  Population.immunize (Population.mk [Immune; Healthy; Healthy] 2) =
    (Ok tt, Population.mk [Immune; Immune; Healthy] 2).
Proof.
  assert (H : In Healthy [Immune; Healthy; Healthy]) by (simpl; tauto).
  split; [exact H|].
  destruct (proj2 (proj2 (immunize_spec (Population.mk [Immune; Healthy; Healthy] 2))) H)
    as (l1 & l2 & E & Hn & ->).
  simpl in E. destruct l1 as [|x [|y l1]]; simpl in E; injection E; intros; subst;
    simpl in Hn; try tauto; try discriminate; reflexivity.
Defined.

Lemma replace_first_count (from to : Individual) (l v : list Individual) x :
  Population.replace_first from to l = Some v ->
  count_occ Individual_eq_dec v x + (if Individual_eq_dec from x then 1 else 0) =
  count_occ Individual_eq_dec l x + (if Individual_eq_dec to x then 1 else 0).
Proof.
  intros E. destruct (replace_first_some _ _ _ _ E) as (l1 & l2 & -> & _ & ->).
  rewrite !count_occ_middle. lia.
Qed.

(** C7: on a population with at least one Healthy individual, [immunize()]
    then [reverse_immunize()] both succeed and restore the counts of Healthy
    and Immune individuals. *)
Theorem immunize_reverse_counts (p : Population.Population) :
  In Healthy (Population.population p) ->
  let '(r1, p1) := Population.immunize p in
  let '(r2, p2) := Population.reverse_immunize p1 in
  r1 = Ok tt /\ r2 = Ok tt /\
  Population.counting p2 Healthy = Population.counting p Healthy /\
  Population.counting p2 Immune = Population.counting p Immune.
Proof.
  intros Hin. unfold Population.immunize.
  destruct (Population.replace_first Healthy Immune (Population.population p)) as [v|] eqn:E1.
  2:{ apply replace_first_none in E1. contradiction. }
  unfold Population.reverse_immunize. simpl.
  destruct (Population.replace_first Immune Healthy v) as [w|] eqn:E2.
  2:{ apply replace_first_none in E2. exfalso. apply E2.
      destruct (replace_first_some _ _ _ _ E1) as (l1 & l2 & _ & _ & ->).
      apply in_elt. }
  unfold Population.counting. simpl.
  assert (Hc : forall x, count_occ Individual_eq_dec w x =
                         count_occ Individual_eq_dec (Population.population p) x).
  { intro x. pose proof (replace_first_count _ _ _ _ x E1) as A.
    pose proof (replace_first_count _ _ _ _ x E2) as B. lia. }
  rewrite !Hc. auto.
Qed.

Lemma immunize_reverse_counts_witness :
  In Healthy [Sick; Healthy; Immune] /\
  (let p := Population.mk [Sick; Healthy; Immune] 0 in
   let '(r1, p1) := Population.immunize p in
   let '(r2, p2) := Population.reverse_immunize p1 in
   r1 = Ok tt /\ r2 = Ok tt /\
   Population.counting p2 Healthy = Population.counting p Healthy /\
   Population.counting p2 Immune = Population.counting p Immune).
Proof.
  split; [simpl; tauto|].
  apply (immunize_reverse_counts (Population.mk [Sick; Healthy; Immune] 0)).
  simpl. tauto.
Defined.

(** ** Claims on [Board] *)

(** C3: [propagate()] moves every individual of the inactive set by exactly
    one stage of the disease clock. *)
Theorem propagate_inactive_one_stage
  (building_propagate : Building.Building -> Building.Building) (b : Board.Board) :
  Forall2 one_stage (Board.inactive b) (Board.inactive (Board.propagate building_propagate b)).
Proof.
  destruct b as [p bs ina r]. unfold Board.propagate. simpl.
  induction ina as [|x t IH]; simpl; constructor; auto.
  unfold one_stage. destruct x; simpl; tauto.
Qed.

Lemma empty_all_fst (bs : list Building.Building) :
  fst (Board.empty_all bs) = flat_map Building.contents bs.
Proof.
  induction bs as [|b t IH]; simpl; [reflexivity|].
  destruct (Board.empty_all t) as [cs t']. simpl in *. rewrite IH. reflexivity.
Qed.

(** C4: [go_home()] returns the number of Infected1 individuals among those
    drained from the buildings; the inactive set does not count. *)
Theorem go_home_newly_infected (b : Board.Board) :
  fst (Board.go_home b) =
    count_occ Individual_eq_dec (flat_map Building.contents (Board.buildings b)) Infected1 /\
  (forall l, fst (Board.go_home (Board.set_inactive b l)) = fst (Board.go_home b)).
Proof.
  unfold Board.go_home, Board.set_inactive. simpl.
  rewrite <- empty_all_fst.
  destruct (Board.empty_all (Board.buildings b)) as [v bs']. simpl. auto.
Qed.

Lemma fold_min_le (t : list nat) (a : nat) :
  fold_left Nat.min t a <= a /\ (forall y, In y t -> fold_left Nat.min t a <= y).
Proof.
  revert a; induction t as [|x t IH]; intros a; simpl; [split; [lia|tauto]|].
  destruct (IH (Nat.min a x)) as [H1 H2]. split; [lia|].
  intros y [<-|Hy]; [lia|auto].
Qed.

Lemma fold_max_ge (t : list nat) (a : nat) :
  a <= fold_left Nat.max t a /\ (forall y, In y t -> y <= fold_left Nat.max t a).
Proof.
  revert a; induction t as [|x t IH]; intros a; simpl; [split; [lia|tauto]|].
  destruct (IH (Nat.max a x)) as [H1 H2]. split; [lia|].
  intros y [<-|Hy]; [lia|auto].
Qed.

Lemma fold_min_const (t : list nat) (a : nat) :
  (forall y, In y t -> y = a) -> fold_left Nat.min t a = a.
Proof.
  induction t as [|x t IH]; intros H; simpl; [reflexivity|].
  rewrite (H x (or_introl eq_refl)), Nat.min_id. apply IH. intros y Hy. apply H. right. exact Hy.
Qed.

Lemma fold_max_const (t : list nat) (a : nat) :
  (forall y, In y t -> y = a) -> fold_left Nat.max t a = a.
Proof.
  induction t as [|x t IH]; intros H; simpl; [reflexivity|].
  rewrite (H x (or_introl eq_refl)), Nat.max_id. apply IH. intros y Hy. apply H. right. exact Hy.
Qed.

Lemma min_max_eqb_spec (l : list nat) :
  Board.option_eqb (Board.iter_min l) (Board.iter_max l) = true <->
  (forall x y, In x l -> In y l -> x = y).
Proof.
  destruct l as [|a t]; simpl; [split; [tauto|reflexivity]|].
  rewrite Nat.eqb_eq.
  destruct (fold_min_le t a) as [m1 m2]. destruct (fold_max_ge t a) as [M1 M2].
  split.
  - intros E x y Hx Hy.
    assert (Bx : fold_left Nat.min t a <= x /\ x <= fold_left Nat.max t a)
      by (destruct Hx as [<-|Hx]; split; auto).
    assert (By : fold_left Nat.min t a <= y /\ y <= fold_left Nat.max t a)
      by (destruct Hy as [<-|Hy]; split; auto).
    lia.
  - intros H. rewrite fold_min_const, fold_max_const; auto;
      intros y Hy; apply H; simpl; auto.
Qed.

Lemma spreading_pairs_dec (bs : list Building.Building) :
  (forall x y, In x (map Building.spreading bs) -> In y (map Building.spreading bs) -> x = y) \/
  (exists b1 b2, In b1 bs /\ In b2 bs /\ Building.spreading b1 <> Building.spreading b2).
Proof.
  destruct bs as [|b0 t]; [left; simpl; tauto|].
  destruct (existsb (fun b => negb (Nat.eqb (Building.spreading b) (Building.spreading b0)))
              (b0 :: t)) eqn:E.
  - right. apply existsb_exists in E as (b & Hb & Hne).
    apply negb_true_iff, Nat.eqb_neq in Hne.
    exists b0, b. repeat split; [left; reflexivity|exact Hb|auto].
  - left.
    assert (Hall : forall b, In b (b0 :: t) -> Building.spreading b = Building.spreading b0).
    { intros b Hb. destruct (Nat.eqb_spec (Building.spreading b) (Building.spreading b0)); auto.
      exfalso. assert (existsb (fun b => negb (Nat.eqb (Building.spreading b)
                      (Building.spreading b0))) (b0 :: t) = true) as E'.
      { apply existsb_exists. exists b. split; [exact Hb|].
        apply negb_true_iff, Nat.eqb_neq. exact n. }
      congruence. }
    intros x y Hx Hy. apply in_map_iff in Hx as (bx & <- & Hx).
    apply in_map_iff in Hy as (by_ & <- & Hy).
    rewrite (Hall bx Hx), (Hall by_ Hy). reflexivity.
Qed.

(** C9: each fatal precondition panics exactly when it is violated:
    [Board::new] when two buildings have different spreading modes,
    [Population::update] when the lengths differ, [Board::spreading] when
    there are no buildings. *)
Theorem fatal_preconditions :
  (forall (pop : Population.Population) (bs : list Building.Building),
     Board.new pop bs = None <->
     exists b1 b2, In b1 bs /\ In b2 bs /\ Building.spreading b1 <> Building.spreading b2) /\
  (forall (p : Population.Population) (v : list Individual),
     Population.update p v = None <-> length v <> Population.len p) /\
  (forall b : Board.Board, Board.spreading b = None <-> Board.buildings b = []).
Proof.
  split; [|split].
  - intros pop bs. unfold Board.new.
    pose proof (min_max_eqb_spec (map Building.spreading bs)) as H.
    destruct (Board.option_eqb _ _) eqn:E; split.
    + discriminate.
    + intros (b1 & b2 & H1 & H2 & Hne). exfalso. apply Hne.
      apply (proj1 H eq_refl); apply in_map; assumption.
    + intros _. destruct (spreading_pairs_dec bs) as [Hall|Hex]; [|exact Hex].
      exfalso. assert (false = true) by (apply H; exact Hall). discriminate.
    + reflexivity.
  - intros p v. unfold Population.update.
    destruct (Nat.eqb_spec (Population.len p) (length v)); split; congruence || lia.
  - intros [p bs ina r]. unfold Board.spreading. simpl.
    destruct bs; simpl; split; congruence.
Qed.

(** ** Claims on [Simulation] and [Report] *)

(** C10: for a report with no counting table, [healthy()] is empty and
    [average_counting_table()] has zero columns, while [healthy_transpose()]
    and [average_healthy()] index the first table and panic. *)
Theorem empty_report_views :
  let r := Simulation.mkReport [] in
  Simulation.healthy r = [] /\
  Simulation.average_counting_table r = Some (repeat [] (length Individual_iter)) /\
  Simulation.healthy_transpose r = None /\
  Simulation.average_healthy r = None.
Proof. repeat split. Qed.

Lemma run_loop_zero_days
  (building_propagate : Building.Building -> Building.Building)
  (register : nat -> list Building.Building -> Recording.Recording -> Recording.Recording)
  (k : nat) (template : Board.Board) (rng : Rng) (acc : list CountingTable) :
  Simulation.run_loop building_propagate register k template 0 rng acc =
    Some (acc ++ repeat (Board.counting_table template) k, rng).
Proof.
  revert acc; induction k as [|k IH]; intros acc; simpl.
  - rewrite app_nil_r. reflexivity.
  - rewrite IH, <- app_assoc. reflexivity.
Qed.

(** C8: [run()] with zero replicates yields an empty report, whose
    [average_counting_table()] has zero columns; with zero days, every
    replicate of a template built by [Board::new] yields the one-column
    table of the template's initial counts. *)
Theorem run_degenerate_plans
  (building_propagate : Building.Building -> Building.Building)
  (register : nat -> list Building.Building -> Recording.Recording -> Recording.Recording) :
  (forall (template : Board.Board) (d : nat) (rng : Rng),
     Simulation.run building_propagate register
       (Simulation.mk template (Simulation.mkPlan 0 d)) rng = Some (Simulation.mkReport [], rng) /\
     Simulation.average_counting_table (Simulation.mkReport []) =
       Some (repeat [] (length Individual_iter))) /\
  (forall (pop : Population.Population) (bs : list Building.Building)
          (template : Board.Board) (n : nat) (rng : Rng),
     Board.new pop bs = Some template ->
     Simulation.run building_propagate register
       (Simulation.mk template (Simulation.mkPlan n 0)) rng =
     Some (Simulation.mkReport
             (repeat (map (fun s => (s, [Population.counting pop s])) Individual_iter) n), rng)).
Proof.
  split.
  - intros template d rng. split; reflexivity.
  - intros pop bs template n rng H. unfold Board.new in H.
    destruct (Board.option_eqb _ _); [|discriminate]. injection H as <-.
    unfold Simulation.run. simpl. rewrite run_loop_zero_days. reflexivity.
Qed.

Lemma run_degenerate_plans_witness :
  Board.new (Population.from [Healthy; Sick; Immune])
    [Building.build "Defult"%string 2 2 0] =
    Some (Board.mk (Population.from [Healthy; Sick; Immune])
            [Building.build "Defult"%string 2 2 0] []
            (Recording.new (Population.from [Healthy; Sick; Immune]) [])) /\
  Simulation.run (fun b => b) (fun _ _ r => r)
    (Simulation.mk (Board.mk (Population.from [Healthy; Sick; Immune])
            [Building.build "Defult"%string 2 2 0] []
            (Recording.new (Population.from [Healthy; Sick; Immune]) []))
       (Simulation.mkPlan 2 0)) (fun k => k) =
  Some (Simulation.mkReport
          (repeat (map (fun s => (s, [Population.counting (Population.from [Healthy; Sick; Immune]) s]))
                     Individual_iter) 2), fun k => k).
Proof.
  split; [reflexivity|].
  apply (proj2 (run_degenerate_plans (fun b => b) (fun _ _ r => r))
           (Population.from [Healthy; Sick; Immune]) [Building.build "Defult"%string 2 2 0]).
  reflexivity.
Defined.

(** ** The visiting step *)

Lemma set_nth_nth_error {A : Type} (l : list A) i x :
  nth_error l i = Some x -> set_nth l i x = l.
Proof.
  revert i; induction l as [|h t IH]; intros [|i] H; simpl in *; try discriminate.
  - congruence.
  - f_equal. auto.
Qed.

Lemma map_set_nth {A B : Type} (g : A -> B) (l : list A) i x :
  map g (set_nth l i x) = set_nth (map g l) i (g x).
Proof.
  revert i; induction l as [|h t IH]; intros [|i]; simpl; f_equal; auto.
Qed.

Lemma sum_set_nth (h : Building.Building -> nat) (l : list Building.Building) i x y :
  nth_error l i = Some x ->
  list_sum (map h (set_nth l i y)) + h x = list_sum (map h l) + h y.
Proof.
  revert i; induction l as [|b t IH]; intros [|i] H; simpl in *; try discriminate.
  - injection H as ->. lia.
  - specialize (IH i H). lia.
Qed.

Lemma collect_remaining (fuel : nat) (p : Population.Population) :
  Population.len p - Population.counter p <= fuel ->
  Population.collect fuel p = remaining p.
Proof.
  revert p; induction fuel as [|f IH]; intros [v c] H; unfold remaining, Population.len in *;
    simpl in *.
  - rewrite skipn_all2 by lia. reflexivity.
  - unfold Population.next, Population.len. simpl.
    destruct (Nat.ltb_spec c (length v)).
    + rewrite IH by (unfold Population.len; simpl; lia). unfold remaining. simpl.
      symmetry. apply skipn_nth_cons. exact H0.
    + rewrite skipn_all2 by lia. reflexivity.
Qed.

Lemma visit_inv_refl (b : Board.Board) : visit_inv b b.
Proof. repeat split. Qed.

Lemma visit_inv_trans (b1 b2 b3 : Board.Board) :
  visit_inv b1 b2 -> visit_inv b2 b3 -> visit_inv b1 b3.
Proof.
  intros (A1 & B1 & C1 & D1 & E1) (A2 & B2 & C2 & D2 & E2).
  repeat split; congruence || lia.
Qed.

Lemma sick_count_app (l1 l2 : list Individual) :
  sick_count (l1 ++ l2) = sick_count l1 + sick_count l2.
Proof. unfold sick_count. apply count_occ_app. Qed.

Lemma remaining_next (v : list Individual) (c : nat) :
  c < length v ->
  remaining (Population.mk v c) = nth c v Healthy :: remaining (Population.mk v (S c)).
Proof. intros H. unfold remaining. simpl. apply skipn_nth_cons. exact H. Qed.

Lemma visit_building_loop_spec (fuel index : nat) (b : Board.Board) :
  index < length (Board.buildings b) ->
  exists b', Board.visit_building_loop fuel index b = Some b' /\ visit_inv b b'.
Proof.
  revert b; induction fuel as [|f IH]; intros b Hi; simpl.
  { exists b. split; [reflexivity|apply visit_inv_refl]. }
  destruct (nth_error (Board.buildings b) index) as [bd|] eqn:Ebd.
  2:{ apply nth_error_None in Ebd. lia. }
  destruct (negb (Building.is_full bd) && Building.is_open bd) eqn:Econd.
  2:{ exists b. split; [reflexivity|apply visit_inv_refl]. }
  apply andb_true_iff in Econd as [Efull _]. apply negb_true_iff in Efull.
  destruct b as [[v c] bs ina r]. simpl in *.
  unfold Population.next, Population.len. simpl.
  destruct (Nat.ltb_spec c (length v)) as [Hc|Hc].
  2:{ eexists. split; [reflexivity|apply visit_inv_refl]. }
  pose proof (remaining_next v c Hc) as Hrem.
  destruct (nth c v Healthy) eqn:Ex.
  5:{ destruct (IH (Board.mk (Population.mk v (S c)) bs (ina ++ [Sick]) r)) as (b' & E' & Inv');
      [simpl; exact Hi|].
      exists b'. split; [exact E'|].
      eapply visit_inv_trans; [|exact Inv'].
      unfold visit_inv; simpl; rewrite Hrem; simpl.
      rewrite ?length_app, ?sick_count_app; unfold sick_count; simpl.
      repeat split; lia. }
  (* the other five states are pushed into the building *)
  all: unfold Building.try_push; rewrite Efull.
  all: match goal with
       | |- context [Building.mk ?n ?cap (?cs ++ [?x]) ?o ?sp] =>
           set (bd' := Building.mk n cap (cs ++ [x]) o sp)
       end.
  all: destruct (IH (Board.mk (Population.mk v (S c)) (set_nth bs index bd') ina r))
         as (b' & E' & Inv'); [simpl; rewrite set_nth_length; exact Hi|].
  all: exists b'; split; [exact E'|].
  all: eapply visit_inv_trans; [|exact Inv'].
  all: unfold visit_inv; simpl; rewrite Hrem.
  all: split; [apply set_nth_length|].
  all: split; [reflexivity|].
  all: split; [|split].
  all: try (unfold sum_contents;
    pose proof (sum_set_nth (fun bd => length (Building.contents bd)) bs index bd bd' Ebd) as Hs;
    assert (Hl : length (Building.contents bd') = length (Building.contents bd) + 1)
      by (unfold bd'; simpl; rewrite length_app; reflexivity);
    cbn beta in Hs; cbn [length]; lia).
  all: try (unfold sick_count; simpl; lia).
  all: rewrite map_set_nth; unfold bd'; simpl; rewrite sick_count_app;
    unfold sick_count at 2; simpl; rewrite Nat.add_0_r;
    apply set_nth_nth_error;
    apply map_nth_error with (f := fun bd => sick_count (Building.contents bd)); exact Ebd.
Qed.

Lemma visit_indices_spec (idx : list nat) (b : Board.Board) :
  (forall i, In i idx -> i < length (Board.buildings b)) ->
  exists b', Board.visit_indices idx b = Some b' /\ visit_inv b b'.
Proof.
  revert b; induction idx as [|i r IH]; intros b H; simpl.
  - exists b. split; [reflexivity|apply visit_inv_refl].
  - unfold Board.visit_building.
    destruct (visit_building_loop_spec (S (Population.len (Board.population b))) i b)
      as (b1 & E1 & Inv1); [apply H; left; reflexivity|].
    rewrite E1.
    destruct (IH b1) as (b2 & E2 & Inv2).
    { intros j Hj. destruct Inv1 as [A _]. rewrite A. apply H. right. exact Hj. }
    exists b2. split; [exact E2|]. eapply visit_inv_trans; eauto.
Qed.

(** The whole visiting step: it never panics, keeps the buildings, only
    reorders the population, sends every drawn or undrawn individual to a
    building or to the inactive set, and puts no Sick into a building. *)
Lemma visit_spec (b : Board.Board) (rng : Rng) :
  exists b' rng', Board.visit b rng = Some (b', rng') /\
    length (Board.buildings b') = length (Board.buildings b) /\
    Permutation (Population.population (Board.population b'))
                (Population.population (Board.population b)) /\
    length (Board.inactive b') + sum_contents (@length _) (Board.buildings b') =
      length (Board.inactive b) + sum_contents (@length _) (Board.buildings b) +
      Population.len (Board.population b) /\
    map (fun bd => sick_count (Building.contents bd)) (Board.buildings b') =
      map (fun bd => sick_count (Building.contents bd)) (Board.buildings b) /\
    sick_count (Board.inactive b') =
      sick_count (Board.inactive b) + sick_count (Population.population (Board.population b)).
Proof.
  unfold Board.visit, Population.shuffle.
  pose proof (slice_shuffle_perm (Population.population (Board.population b)) rng) as Hp.
  destruct (slice_shuffle (Population.population (Board.population b)) rng) as [v rng'] eqn:Es.
  simpl in Hp.
  destruct (visit_indices_spec (seq 0 (length (Board.buildings b)))
              (Board.set_population b (Population.mk v 0))) as (b1 & E1 & (A & B & C & D & E)).
  { intros i Hi. apply in_seq in Hi. simpl. lia. }
  rewrite E1. eexists _, rng'. split; [reflexivity|].
  rewrite collect_remaining by lia.
  destruct b as [[w c] bs ina r]. simpl in *.
  unfold remaining in *. simpl in C, E.
  pose proof (Permutation_length Hp) as Hl.
  assert (Hs : sick_count v = sick_count w)
    by (unfold sick_count; apply (Permutation_count_occ Individual_eq_dec); exact Hp).
  unfold Population.len. simpl.
  repeat split.
  - exact A.
  - rewrite B. exact Hp.
  - rewrite length_app. lia.
  - exact D.
  - rewrite sick_count_app. lia.
Qed.

Lemma sick_count_in (l : list Individual) : In Sick l <-> sick_count l > 0.
Proof. unfold sick_count. apply count_occ_In. Qed.

(** C2 (amended): [visit()] puts no Sick individual into a building (the
    Sick count of every building is unchanged, so buildings free of Sick
    before the visit are free of Sick after it), and every Sick individual of
    the population ends in the inactive set: the inactive set gains exactly
    as many Sick individuals as the population holds. *)
Theorem visit_sick_at_home (b : Board.Board) (rng : Rng) :
  match Board.visit b rng with
  | Some (b', _) =>
      map (fun bd => sick_count (Building.contents bd)) (Board.buildings b') =
        map (fun bd => sick_count (Building.contents bd)) (Board.buildings b) /\
      sick_count (Board.inactive b') =
        sick_count (Board.inactive b) + sick_count (Population.population (Board.population b)) /\
      ((forall bd, In bd (Board.buildings b) -> ~ In Sick (Building.contents bd)) ->
       forall bd', In bd' (Board.buildings b') -> ~ In Sick (Building.contents bd'))
  | None => False
  end.
Proof.
  destruct (visit_spec b rng) as (b' & rng' & E & A & P & C & D & F).
  rewrite E. split; [exact D|split].
  - exact F.
  - intros Hno bd' Hbd' Hs.
    apply (in_map (fun bd => sick_count (Building.contents bd))) in Hbd'.
    rewrite D in Hbd'. apply in_map_iff in Hbd' as (bd & Heq & Hbd).
    apply (Hno bd Hbd). apply sick_count_in. apply sick_count_in in Hs. lia.
Qed.

Lemma visit_sick_at_home_witness :
  (forall bd, In bd (Board.buildings small_board) -> ~ In Sick (Building.contents bd)) /\
  match Board.visit small_board (fun k => 3 * k + 1) with
  | Some (b', _) =>
      forall bd', In bd' (Board.buildings b') -> ~ In Sick (Building.contents bd')
  | None => False
  end.
Proof.
  assert (H : forall bd, In bd (Board.buildings small_board) -> ~ In Sick (Building.contents bd)).
  { simpl. intros bd [<-|[]]. simpl. tauto. }
  split; [exact H|].
  pose proof (visit_sick_at_home small_board (fun k => 3 * k + 1)) as T.
  destruct (Board.visit small_board (fun k => 3 * k + 1)) as [[b' r]|]; [|exact T].
  exact (proj2 (proj2 T) H).
Defined.

(** C2 fails as stated: a board whose building holds a Sick individual
    before the visit still has it there after [visit()]. *)
Lemma visit_sick_counterexample :
  ~ (forall (b : Board.Board) (rng : Rng),
       match Board.visit b rng with
       | Some (b', _) =>
           (forall bd, In bd (Board.buildings b') -> ~ In Sick (Building.contents bd)) /\
           (In Sick (Population.population (Board.population b')) -> In Sick (Board.inactive b'))
       | None => False
       end).
Proof.
  intro H. specialize (H occupied_board (fun k => k)).
  vm_compute in H. destruct H as [H _].
  apply (H _ (or_introl eq_refl)). left. reflexivity.
Qed.

(** ** One day *)

Lemma empty_all_snd (bs : list Building.Building) :
  length (snd (Board.empty_all bs)) = length bs /\
  Forall (fun bd => Building.contents bd = []) (snd (Board.empty_all bs)).
Proof.
  induction bs as [|b t IH]; simpl; [split; [reflexivity|constructor]|].
  destruct (Board.empty_all t) as [cs t']. simpl in *.
  destruct IH as [IH1 IH2]. split; [congruence|]. constructor; [reflexivity|exact IH2].
Qed.

Lemma length_flat_map_contents (bs : list Building.Building) :
  length (flat_map Building.contents bs) = sum_contents (@length _) bs.
Proof.
  induction bs as [|b t IH]; simpl; [reflexivity|].
  rewrite length_app, IH. reflexivity.
Qed.

Section DayCycle.

Variable building_propagate : Building.Building -> Building.Building.

(** The contagion step of a building changes individuals, not their number. *)
Hypothesis building_propagate_cells :
  forall bd, length (Building.contents (building_propagate bd)) = length (Building.contents bd).

Variable register : nat -> list Building.Building -> Recording.Recording -> Recording.Recording.

Lemma sum_contents_propagate (bs : list Building.Building) :
  sum_contents (@length _) (map building_propagate bs) = sum_contents (@length _) bs.
Proof.
  induction bs as [|b t IH]; simpl; [reflexivity|].
  unfold sum_contents in *. simpl. rewrite IH, building_propagate_cells. reflexivity.
Qed.

(** C1 (amended): one day [advance()] ends with a population of the size of
    the population, plus the individuals already held by the buildings, plus
    those already in the inactive set when it starts; and it leaves every
    building and the inactive set empty. So the size is conserved on every
    day that starts with empty buildings and an empty inactive set: every
    day after the first, and every day of a board built with empty buildings. *)
Theorem advance_population_size (b : Board.Board) (rng : Rng) :
  match Board.advance building_propagate register b rng with
  | Some (b', _) =>
      Population.len (Board.population b') =
        Population.len (Board.population b) + sum_contents (@length _) (Board.buildings b) +
        length (Board.inactive b) /\
      Forall (fun bd => Building.contents bd = []) (Board.buildings b') /\
      Board.inactive b' = []
  | None => False
  end.
Proof.
  unfold Board.advance, Board.advance_population.
  destruct (visit_spec b rng) as (b1 & rng' & E & A & P & C & D & F).
  rewrite E. unfold Board.go_home, Board.propagate. simpl.
  pose proof (empty_all_fst (map building_propagate (Board.buildings b1))) as Hf.
  pose proof (empty_all_snd (map building_propagate (Board.buildings b1))) as [_ Hs].
  destruct (Board.empty_all (map building_propagate (Board.buildings b1))) as [v bs'].
  simpl in *. subst v.
  unfold Population.len at 1. simpl.
  rewrite length_app, length_flat_map_contents, length_map, sum_contents_propagate.
  split; [lia|split; [exact Hs|reflexivity]].
Qed.

End DayCycle.

Lemma contagion_example_cells (bd : Building.Building) :
  length (Building.contents (contagion_example bd)) = length (Building.contents bd).
Proof. unfold contagion_example. simpl. apply length_map. Qed.

Lemma advance_population_size_witness :
  (forall bd, length (Building.contents (contagion_example bd)) = length (Building.contents bd)) /\
  match Board.advance contagion_example (fun _ _ r => r) small_board (fun k => k) with
  | Some (b', _) =>
      Population.len (Board.population b') =
        Population.len (Board.population small_board) +
        sum_contents (@length _) (Board.buildings small_board) +
        length (Board.inactive small_board) /\
      Forall (fun bd => Building.contents bd = []) (Board.buildings b') /\
      Board.inactive b' = []
  | None => False
  end.
Proof.
  split; [exact contagion_example_cells|].
  exact (advance_population_size contagion_example contagion_example_cells
           (fun _ _ r => r) small_board (fun k => k)).
Defined.

(** C1 fails as stated: a board whose building is occupied when the day
    starts ends the day with a larger population. *)
Lemma advance_size_counterexample :
  ~ (forall (b : Board.Board) (rng : Rng),
       match Board.advance contagion_example (fun _ _ r => r) b rng with
       | Some (b', _) => Population.len (Board.population b') = Population.len (Board.population b)
       | None => False
       end).
Proof.
  intro H. specialize (H occupied_board (fun k => k)).
  vm_compute in H. discriminate H.
Qed.

(** * Further properties of the code *)

(** ** Population *)

(** [reverse_immunize()] fails with [NoImmuneLeft] exactly when there is no
    Immune individual, and then leaves the population unchanged; otherwise
    it turns the first Immune into Healthy and changes nothing else. *)
Theorem reverse_immunize_spec (p : Population.Population) :
  (fst (Population.reverse_immunize p) = Err NoImmuneLeft <->
     ~ In Immune (Population.population p)) /\
  (~ In Immune (Population.population p) -> snd (Population.reverse_immunize p) = p) /\
  (In Immune (Population.population p) ->
     exists l1 l2,
       Population.population p = l1 ++ Immune :: l2 /\ ~ In Immune l1 /\
       Population.reverse_immunize p =
         (Ok tt, Population.mk (l1 ++ Healthy :: l2) (Population.counter p))).
Proof.
  unfold Population.reverse_immunize.
  pose proof (replace_first_none Immune Healthy (Population.population p)) as Hn.
  destruct (Population.replace_first Immune Healthy (Population.population p)) as [v|] eqn:E.
  - assert (Hin : In Immune (Population.population p)).
    { destruct (In_dec Individual_eq_dec Immune (Population.population p)); auto.
      apply Hn in n. discriminate. }
    destruct (replace_first_some _ _ _ _ E) as (l1 & l2 & Hp & Hl1 & ->).
    simpl. repeat split; try discriminate; try tauto.
    intros _. exists l1, l2. auto.
  - simpl. pose proof (proj1 Hn eq_refl). repeat split; tauto.
Qed.

Lemma reverse_immunize_spec_witness :
  In Immune [Sick; Immune; Immune] /\
  Population.reverse_immunize (Population.mk [Sick; Immune; Immune] 1) =
    (Ok tt, Population.mk [Sick; Healthy; Immune] 1).
Proof.
  assert (H : In Immune [Sick; Immune; Immune]) by (simpl; tauto).
  split; [exact H|].
  destruct (proj2 (proj2 (reverse_immunize_spec (Population.mk [Sick; Immune; Immune] 1))) H)
    as (l1 & l2 & E & Hn & ->).
  simpl in E. destruct l1 as [|x [|y l1]]; simpl in E; injection E; intros; subst;
    simpl in Hn; try tauto; try discriminate; reflexivity.
Defined.

(** A successful [immunize()] moves exactly one individual from Healthy to
    Immune, and a successful [reverse_immunize()] one from Immune to
    Healthy: every other count is unchanged. *)
Theorem immunize_moves_one (p p' : Population.Population) :
  (Population.immunize p = (Ok tt, p') ->
     forall x, Population.counting p' x + (if Individual_eq_dec Healthy x then 1 else 0) =
               Population.counting p x + (if Individual_eq_dec Immune x then 1 else 0)) /\
  (Population.reverse_immunize p = (Ok tt, p') ->
     forall x, Population.counting p' x + (if Individual_eq_dec Immune x then 1 else 0) =
               Population.counting p x + (if Individual_eq_dec Healthy x then 1 else 0)).
Proof.
  unfold Population.immunize, Population.reverse_immunize, Population.counting.
  split; intros H x.
  - destruct (Population.replace_first Healthy Immune _) as [v|] eqn:E; [|discriminate].
    injection H as <-. simpl. exact (replace_first_count _ _ _ _ x E).
  - destruct (Population.replace_first Immune Healthy _) as [v|] eqn:E; [|discriminate].
    injection H as <-. simpl. exact (replace_first_count _ _ _ _ x E).
Qed.

Lemma immunize_moves_one_witness :
  Population.immunize (Population.mk [Immune; Healthy] 0) =
    (Ok tt, Population.mk [Immune; Immune] 0) /\
  Population.counting (Population.mk [Immune; Immune] 0) Immune + 0 =
    Population.counting (Population.mk [Immune; Healthy] 0) Immune + 1.
Proof.
  split; [reflexivity|].
  exact (proj1 (immunize_moves_one (Population.mk [Immune; Healthy] 0)
                  (Population.mk [Immune; Immune] 0)) eq_refl Immune).
Defined.

(** [shuffle(rng)] keeps the size and the count of every state, and resets
    the sampling cursor. *)
Theorem shuffle_keeps_counts (p : Population.Population) (rng : Rng) :
  let p' := fst (Population.shuffle p rng) in
  Population.len p' = Population.len p /\
  (forall x, Population.counting p' x = Population.counting p x) /\
  Population.counter p' = 0.
Proof.
  unfold Population.shuffle, Population.len, Population.counting.
  pose proof (slice_shuffle_perm (Population.population p) rng) as Hp.
  destruct (slice_shuffle (Population.population p) rng) as [v r]. simpl in *.
  split; [apply Permutation_length; exact Hp|split; [|reflexivity]].
  intro x. apply (Permutation_count_occ Individual_eq_dec). exact Hp.
Qed.

(** The sampling cursor: [k] calls of [next()] return the elements from the
    cursor on, in order, then [None] for every further call; the cursor
    advances by one per element returned and never moves back. *)
Theorem next_n_sequence (k : nat) (v : list Individual) (c : nat) :
  Population.next_n k (Population.mk v c) =
    (map Some (firstn k (skipn c v)) ++ repeat None (k - (length v - c)),
     Population.mk v (Nat.max c (Nat.min (c + k) (length v)))).
Proof.
  revert c; induction k as [|k IH]; intros c.
  - cbn -[Nat.max Nat.min]. f_equal. f_equal. lia.
  - destruct (Nat.ltb_spec c (length v)) as [Hc|Hc].
    + change (Population.next_n (S k) (Population.mk v c))
        with (let '(o, p) := Population.next (Population.mk v c) in
              let '(os, p') := Population.next_n k p in (o :: os, p')).
      unfold Population.next, Population.len. cbn [Population.population Population.counter].
      apply Nat.ltb_lt in Hc as Hb. rewrite Hb, IH.
      rewrite (skipn_nth_cons v c Healthy Hc).
      replace (S k - (length v - c)) with (k - (length v - S c)) by lia.
      replace (Nat.max c (Nat.min (c + S k) (length v)))
        with (Nat.max (S c) (Nat.min (S c + k) (length v))) by lia.
      reflexivity.
    + change (Population.next_n (S k) (Population.mk v c))
        with (let '(o, p) := Population.next (Population.mk v c) in
              let '(os, p') := Population.next_n k p in (o :: os, p')).
      unfold Population.next, Population.len. cbn [Population.population Population.counter].
      apply Nat.ltb_ge in Hc as Hb. rewrite Hb, IH.
      rewrite skipn_all2 by lia.
      replace (length v - c) with 0 by lia. rewrite !Nat.sub_0_r.
      replace (Nat.max c (Nat.min (c + S k) (length v)))
        with (Nat.max c (Nat.min (c + k) (length v))) by lia.
      rewrite !firstn_nil. cbn [map app repeat]. reflexivity.
Qed.

Lemma hm_get_incr (hm : Population.CountMap) (k x : Individual) (n : nat) :
  Population.hm_get hm k = Some n ->
  Population.hm_get (Population.hm_incr hm k) x =
    if individual_eqb k x then Some (S n) else Population.hm_get hm x.
Proof.
  induction hm as [|[k' v] t IH]; simpl; [discriminate|].
  destruct (individual_eqb k' k) eqn:E1.
  - apply individual_eqb_spec in E1. subst k'. intros H. injection H as <-.
    simpl. destruct (individual_eqb k x); reflexivity.
  - intros H. simpl. rewrite (IH H).
    destruct (individual_eqb k' x) eqn:E2, (individual_eqb k x) eqn:E3; auto.
    apply individual_eqb_spec in E2, E3. subst.
    rewrite (proj2 (individual_eqb_spec x x) eq_refl) in E1. discriminate.
Qed.

Lemma fold_hm_incr (l : list Individual) (hm : Population.CountMap) (f : Individual -> nat) :
  (forall x, Population.hm_get hm x = Some (f x)) ->
  forall x, Population.hm_get (fold_left Population.hm_incr l hm) x =
            Some (f x + count_occ Individual_eq_dec l x).
Proof.
  revert hm f; induction l as [|i t IH]; intros hm f H x; simpl.
  - rewrite H. f_equal. lia.
  - rewrite (IH _ (fun y => f y + if Individual_eq_dec i y then 1 else 0)).
    + f_equal. destruct (Individual_eq_dec i x); lia.
    + intros y. rewrite (hm_get_incr hm i y (f i) (H i)).
      unfold individual_eqb. destruct (Individual_eq_dec i y); subst.
      * f_equal. lia.
      * rewrite H. f_equal. lia.
Qed.

(** [counting_all()] has an entry for every state, equal to [counting] of
    that state (zero for absent states). *)
Theorem counting_all_spec (p : Population.Population) (x : Individual) :
  Population.hm_get (Population.counting_all p) x = Some (Population.counting p x).
Proof.
  unfold Population.counting_all, Population.counting.
  rewrite (fold_hm_incr _ _ (fun _ => 0)); [reflexivity|].
  intros y. destruct y; reflexivity.
Qed.

(** ** Board *)

Lemma count_occ_repeat_dec (a x : Individual) (n : nat) :
  count_occ Individual_eq_dec (repeat a n) x = if Individual_eq_dec a x then n else 0.
Proof.
  induction n as [|n IH]; simpl; [destruct (Individual_eq_dec a x); reflexivity|].
  rewrite IH. destruct (Individual_eq_dec a x); reflexivity.
Qed.

(** [BoardBuilder::build] never panics: its buildings share the builder's
    spreading mode. The board holds exactly the requested number of each
    state, a fresh cursor, an empty inactive set, one empty open building of
    [cols * rows] cells per requested size, and a counting table starting
    with the initial counts. *)
Theorem BoardBuilder_build_spec (bb : BoardBuilder) :
  exists b, BoardBuilder_build bb = Some b /\
    Population.counting (Board.population b) Healthy = healthy bb /\
    Population.counting (Board.population b) Infected1 = infected1 bb /\
    Population.counting (Board.population b) Infected2 = infected2 bb /\
    Population.counting (Board.population b) Infected3 = infected3 bb /\
    Population.counting (Board.population b) Sick = sick bb /\
    Population.counting (Board.population b) Immune = immune bb /\
    Population.counter (Board.population b) = 0 /\
    Board.inactive b = [] /\
    map (fun bd => (Building.capacity bd, Building.contents bd, Building.open bd,
                    Building.spreading bd)) (Board.buildings b) =
      map (fun '(cols, rows) => (cols * rows, [], true, bb_spreading bb)) (bb_buildings bb) /\
    Board.counting_table b =
      map (fun s => (s, [Population.counting (Board.population b) s])) Individual_iter.
Proof.
  unfold BoardBuilder_build, Board.new.
  set (bs := map (fun '(cols, rows) => Building.build "Defult"%string cols rows (bb_spreading bb))
                 (bb_buildings bb)).
  assert (Hsp : forall bd, In bd bs -> Building.spreading bd = bb_spreading bb).
  { intros bd Hbd. unfold bs in Hbd. apply in_map_iff in Hbd as ([c r] & <- & _). reflexivity. }
  assert (Heq : Board.option_eqb (Board.iter_min (map Building.spreading bs))
                  (Board.iter_max (map Building.spreading bs)) = true).
  { apply min_max_eqb_spec. intros x y Hx Hy.
    apply in_map_iff in Hx as (bx & <- & Hx). apply in_map_iff in Hy as (by_ & <- & Hy).
    rewrite (Hsp bx Hx), (Hsp by_ Hy). reflexivity. }
  rewrite Heq. eexists. split; [reflexivity|].
  unfold Population.counting. cbn [Board.population Population.population Population.from].
  rewrite !count_occ_app, !count_occ_repeat_dec.
  repeat split; try (simpl; lia).
  cbn [Board.buildings]. unfold bs. rewrite map_map. apply map_ext. intros [c r]. reflexivity.
Qed.

Lemma nth_error_set_nth {A : Type} (l : list A) i j x :
  nth_error (set_nth l i x) j =
    if Nat.eqb i j then (if i <? length l then Some x else None) else nth_error l j.
Proof.
  revert i j; induction l as [|h t IH]; intros [|i] [|j]; simpl;
    try reflexivity; try (destruct (_ =? _); reflexivity).
  rewrite IH. destruct (Nat.eqb i j); [|reflexivity].
  destruct (Nat.ltb_spec i (length t)), (Nat.ltb_spec (S i) (S (length t))); auto; lia.
Qed.


Lemma shape_inv_refl (b : Board.Board) : shape_inv b b.
Proof. unfold shape_inv. auto. Qed.

Lemma shape_inv_same (b b' : Board.Board) :
  Board.buildings b' = Board.buildings b -> shape_inv b b'.
Proof. intros E. unfold shape_inv. rewrite E. auto. Qed.

Lemma shape_inv_trans (b1 b2 b3 : Board.Board) :
  shape_inv b1 b2 -> shape_inv b2 b3 -> shape_inv b1 b3.
Proof.
  intros (A1 & B1 & C1) (A2 & B2 & C2). unfold shape_inv.
  split; [congruence|split; auto].
Qed.

Lemma Forall_set_nth {A : Type} (P : A -> Prop) (l : list A) i x :
  Forall P l -> P x -> Forall P (set_nth l i x).
Proof.
  revert i; induction l as [|h t IH]; intros [|i] Hl Hx; simpl; auto;
    inversion Hl; subst; constructor; auto.
Qed.

Lemma flat_map_set_nth (bs : list Building.Building) i bd bd' x :
  nth_error bs i = Some bd ->
  Building.contents bd' = Building.contents bd ++ [x] ->
  Permutation (flat_map Building.contents (set_nth bs i bd'))
              (x :: flat_map Building.contents bs).
Proof.
  revert i; induction bs as [|h t IH]; intros [|i] E Hc; simpl in *; try discriminate.
  - injection E as ->. rewrite Hc, <- app_assoc. simpl.
    symmetry. apply Permutation_middle.
  - rewrite (IH i E Hc). symmetry. apply Permutation_middle.
Qed.

(** One visited building: the loop keeps the shape of the buildings and
    moves individuals between the undrawn rest, the buildings and the
    inactive set without losing or duplicating any. *)
Lemma visit_building_loop_moves (fuel index : nat) (b b' : Board.Board) :
  Board.visit_building_loop fuel index b = Some b' ->
  shape_inv b b' /\
  Permutation (Board.inactive b' ++ flat_map Building.contents (Board.buildings b') ++
                 remaining (Board.population b'))
              (Board.inactive b ++ flat_map Building.contents (Board.buildings b) ++
                 remaining (Board.population b)).
Proof.
  revert b; induction fuel as [|f IH]; intros b E; simpl in E.
  { injection E as <-. split; [apply shape_inv_refl|reflexivity]. }
  destruct (nth_error (Board.buildings b) index) as [bd|] eqn:Ebd; [|discriminate].
  destruct (negb (Building.is_full bd) && Building.is_open bd) eqn:Econd.
  2:{ injection E as <-. split; [apply shape_inv_refl|reflexivity]. }
  apply andb_true_iff in Econd as [Efull Eopen]. apply negb_true_iff in Efull.
  unfold Building.is_open in Eopen.
  destruct b as [[v c] bs ina r]. cbn [Board.buildings] in Ebd.
  unfold Population.next, Population.len in E. cbn [Board.population Population.population
    Population.counter] in E.
  destruct (Nat.ltb_spec c (length v)) as [Hc|Hc].
  2:{ injection E as <-. split; [apply shape_inv_same; reflexivity|reflexivity]. }
  pose proof (remaining_next v c Hc) as Hrem.
  destruct (nth c v Healthy) eqn:Ex.
  5:{ apply IH in E as [S1 P1]. split.
      - eapply shape_inv_trans; [|exact S1]. apply shape_inv_same. reflexivity.
      - rewrite P1. unfold Board.set_inactive, Board.set_population.
        cbn [Board.inactive Board.buildings Board.population]. rewrite Hrem, <- app_assoc. cbn [app].
        apply Permutation_app_head. apply Permutation_middle. }
  all: unfold Building.try_push in E; rewrite Efull in E.
  all: match type of E with
       | context [Building.mk ?n ?cap (?cs ++ [?x]) ?o ?sp] =>
           set (bd' := Building.mk n cap (cs ++ [x]) o sp) in E
       end.
  all: apply IH in E as [S1 P1].
  all: split; [eapply shape_inv_trans; [|exact S1]|
               rewrite P1; unfold Board.set_buildings, Board.set_population;
               cbn [Board.inactive Board.buildings Board.population]; rewrite Hrem;
               rewrite (flat_map_set_nth bs index bd bd' _ Ebd eq_refl);
               apply Permutation_app_head; cbn [app]; apply Permutation_middle].
  all: unfold shape_inv, Board.set_buildings, Board.set_population; cbn [Board.buildings].
  all: split; [rewrite map_set_nth;
               replace (building_shape bd') with (building_shape bd) by reflexivity;
               apply set_nth_nth_error;
               apply map_nth_error with (f := building_shape); exact Ebd|split].
  all: try (intros j bd0 Hj Ho; rewrite nth_error_set_nth;
            destruct (Nat.eqb_spec index j); [subst j; congruence|exact Hj]).
  all: intros HF; apply Forall_set_nth; [exact HF|].
  all: unfold Building.is_full in Efull; apply Nat.leb_gt in Efull.
  all: unfold bd'; cbn [Building.contents Building.capacity]; rewrite length_app; simpl; lia.
Qed.

Lemma visit_indices_moves (idx : list nat) (b b' : Board.Board) :
  Board.visit_indices idx b = Some b' ->
  shape_inv b b' /\
  Permutation (Board.inactive b' ++ flat_map Building.contents (Board.buildings b') ++
                 remaining (Board.population b'))
              (Board.inactive b ++ flat_map Building.contents (Board.buildings b) ++
                 remaining (Board.population b)).
Proof.
  revert b; induction idx as [|i r IH]; intros b E; simpl in E.
  { injection E as <-. split; [apply shape_inv_refl|reflexivity]. }
  unfold Board.visit_building in E.
  destruct (Board.visit_building_loop _ i b) as [b1|] eqn:E1; [|discriminate].
  apply visit_building_loop_moves in E1 as [S1 P1]. apply IH in E as [S2 P2].
  split; [eapply shape_inv_trans; eauto|]. rewrite P2. exact P1.
Qed.

(** [visit()] never panics. Every individual of the population (whatever
    the cursor) ends in a building or in the inactive set, and no
    individual already there is lost or duplicated. The buildings keep their
    name, capacity, open flag and spreading mode. A closed building is left
    as it is. No building ends up holding more individuals than its capacity
    unless one already did. *)
Theorem visit_moves_population (b : Board.Board) (rng : Rng) :
  exists b' rng', Board.visit b rng = Some (b', rng') /\
    Permutation (Board.inactive b' ++ flat_map Building.contents (Board.buildings b'))
                (Board.inactive b ++ flat_map Building.contents (Board.buildings b) ++
                   Population.population (Board.population b)) /\
    map building_shape (Board.buildings b') = map building_shape (Board.buildings b) /\
    (forall j bd, nth_error (Board.buildings b) j = Some bd -> Building.open bd = false ->
                  nth_error (Board.buildings b') j = Some bd) /\
    (Forall (fun bd => length (Building.contents bd) <= Building.capacity bd)
            (Board.buildings b) ->
     Forall (fun bd => length (Building.contents bd) <= Building.capacity bd)
            (Board.buildings b')).
Proof.
  destruct (visit_spec b rng) as (b' & rng' & E & _).
  exists b', rng'. split; [exact E|].
  revert E. unfold Board.visit, Population.shuffle.
  pose proof (slice_shuffle_perm (Population.population (Board.population b)) rng) as Hp.
  destruct (slice_shuffle (Population.population (Board.population b)) rng) as [v r0].
  simpl in Hp.
  destruct (Board.visit_indices (seq 0 (length (Board.buildings b)))
              (Board.set_population b (Population.mk v 0))) as [b1|] eqn:E1;
    [|discriminate].
  intros E. injection E as <- <-.
  apply visit_indices_moves in E1 as [(A & B & C) P1].
  unfold Board.set_inactive. cbn [Board.inactive Board.buildings Board.population].
  rewrite collect_remaining by (unfold Population.len; lia).
  unfold Board.set_population in *. cbn [Board.inactive Board.buildings Board.population] in *.
  split; [|split; [exact A|split; [exact B|exact C]]].
  rewrite <- app_assoc.
  rewrite (Permutation_app_head (Board.inactive b1)
             (Permutation_app_comm (remaining (Board.population b1))
                (flat_map Building.contents (Board.buildings b1)))).
  rewrite P1. unfold remaining. cbn [Population.population Population.counter skipn].
  rewrite Hp. reflexivity.
Qed.

Lemma visit_moves_population_witness :
  Forall (fun bd => length (Building.contents bd) <= Building.capacity bd)
    (Board.buildings small_board) /\
  exists b' rng', Board.visit small_board (fun k => k) = Some (b', rng') /\
    Forall (fun bd => length (Building.contents bd) <= Building.capacity bd)
      (Board.buildings b') /\
    nth_error (Board.buildings b') 0 =
      Some (Building.mk "Bakery" 2 [Healthy; Infected1] true 0).
Proof.
  assert (H : Forall (fun bd => length (Building.contents bd) <= Building.capacity bd)
                (Board.buildings small_board)) by (simpl; repeat constructor; simpl; lia).
  split; [exact H|].
  destruct (visit_moves_population small_board (fun k => k)) as (b' & r' & E & _ & _ & _ & Hc).
  exists b', r'. split; [exact E|]. split; [exact (Hc H)|].
  vm_compute in E. injection E as <- _. reflexivity.
Defined.

Lemma empty_all_shape (bs : list Building.Building) :
  map building_shape (snd (Board.empty_all bs)) = map building_shape bs.
Proof.
  induction bs as [|b t IH]; simpl; [reflexivity|].
  destruct (Board.empty_all t) as [cs t']. simpl in *. rewrite IH. reflexivity.
Qed.

(** [go_home()] rebuilds the population from everything held by the
    buildings, in building order, followed by the inactive set, with a fresh
    cursor. It empties every building and the inactive set, keeps the
    buildings' shape and leaves the recording alone. *)
Theorem go_home_spec (b : Board.Board) :
  let b' := snd (Board.go_home b) in
  Population.population (Board.population b') =
    flat_map Building.contents (Board.buildings b) ++ Board.inactive b /\
  Population.counter (Board.population b') = 0 /\
  map building_shape (Board.buildings b') = map building_shape (Board.buildings b) /\
  Forall (fun bd => Building.contents bd = []) (Board.buildings b') /\
  Board.inactive b' = [] /\
  Board.recording b' = Board.recording b.
Proof.
  unfold Board.go_home.
  pose proof (empty_all_fst (Board.buildings b)) as Hf.
  pose proof (empty_all_snd (Board.buildings b)) as [_ Hs].
  pose proof (empty_all_shape (Board.buildings b)) as Hsh.
  destruct (Board.empty_all (Board.buildings b)) as [v bs']. simpl in *. subst v.
  repeat split; auto.
Qed.

(** ** Several days *)

(** [advance_many(m + n)] is [advance_many(m)] followed by [advance_many(n)],
    the random generator threaded through. *)
Theorem advance_many_add
  (building_propagate : Building.Building -> Building.Building)
  (register : nat -> list Building.Building -> Recording.Recording -> Recording.Recording)
  (m n : nat) (b : Board.Board) (rng : Rng) :
  Board.advance_many building_propagate register (m + n) b rng =
    match Board.advance_many building_propagate register m b rng with
    | Some (b', rng') => Board.advance_many building_propagate register n b' rng'
    | None => None
    end.
Proof.
  revert b rng; induction m as [|m IH]; intros b rng; simpl; [reflexivity|].
  destruct (Board.advance building_propagate register b rng) as [[b1 r1]|]; auto.
Qed.

Lemma advance_some
  (building_propagate : Building.Building -> Building.Building)
  (register : nat -> list Building.Building -> Recording.Recording -> Recording.Recording)
  (b : Board.Board) (rng : Rng) :
  exists b' rng', Board.advance building_propagate register b rng = Some (b', rng').
Proof.
  unfold Board.advance, Board.advance_population.
  destruct (visit_spec b rng) as (b1 & rng' & E & _). rewrite E.
  destruct (Board.go_home (Board.propagate building_propagate b1)). eauto.
Qed.

Lemma advance_many_some
  (building_propagate : Building.Building -> Building.Building)
  (register : nat -> list Building.Building -> Recording.Recording -> Recording.Recording)
  (n : nat) (b : Board.Board) (rng : Rng) :
  exists b' rng', Board.advance_many building_propagate register n b rng = Some (b', rng').
Proof.
  revert b rng; induction n as [|n IH]; intros b rng; simpl; [eauto|].
  destruct (advance_some building_propagate register b rng) as (b1 & r1 & ->). apply IH.
Qed.

Lemma run_loop_some
  (building_propagate : Building.Building -> Building.Building)
  (register : nat -> list Building.Building -> Recording.Recording -> Recording.Recording)
  (k : nat) (template : Board.Board) (days : nat) (rng : Rng) (acc : list CountingTable) :
  exists acc' rng',
    Simulation.run_loop building_propagate register k template days rng acc = Some (acc', rng') /\
    length acc' = length acc + k.
Proof.
  revert rng acc; induction k as [|k IH]; intros rng acc; simpl.
  - eexists _, _. split; [reflexivity|lia].
  - destruct (advance_many_some building_propagate register days template rng)
      as (b1 & r1 & ->).
    destruct (IH r1 (acc ++ [Board.counting_table b1])) as (acc' & r' & E & L).
    exists acc', r'. split; [exact E|]. rewrite L, length_app. simpl. lia.
Qed.

(** [run()] never panics and its report holds one counting table per
    simulation of the plan. *)
Theorem run_never_panics
  (building_propagate : Building.Building -> Building.Building)
  (register : nat -> list Building.Building -> Recording.Recording -> Recording.Recording)
  (s : Simulation.Simulation) (rng : Rng) :
  exists rep rng', Simulation.run building_propagate register s rng = Some (rep, rng') /\
    length (Simulation.counting_tables rep) =
      Simulation.num_simulations (Simulation.report_plan s).
Proof.
  unfold Simulation.run.
  destruct (run_loop_some building_propagate register
              (Simulation.num_simulations (Simulation.report_plan s)) (Simulation.board s)
              (Simulation.days (Simulation.report_plan s)) rng []) as (acc & r & -> & L).
  eexists _, _. split; [reflexivity|]. simpl. exact L.
Qed.

Section ManyDays.

Variable building_propagate : Building.Building -> Building.Building.

Hypothesis building_propagate_cells :
  forall bd, length (Building.contents (building_propagate bd)) = length (Building.contents bd).

Variable register : nat -> list Building.Building -> Recording.Recording -> Recording.Recording.

Lemma sum_contents_propagate_many (bs : list Building.Building) :
  sum_contents (@length _) (map building_propagate bs) = sum_contents (@length _) bs.
Proof.
  induction bs as [|b t IH]; simpl; [reflexivity|].
  unfold sum_contents in *. simpl. rewrite IH, building_propagate_cells. reflexivity.
Qed.

Lemma sum_contents_empty (bs : list Building.Building) :
  Forall (fun bd => Building.contents bd = []) bs -> sum_contents (@length _) bs = 0.
Proof.
  induction 1 as [|bd t Hbd _ IH]; [reflexivity|].
  unfold sum_contents in *. simpl. rewrite Hbd, IH. reflexivity.
Qed.

Lemma advance_day (b : Board.Board) (rng : Rng) :
  exists b' rng', Board.advance building_propagate register b rng = Some (b', rng') /\
    Population.len (Board.population b') =
      Population.len (Board.population b) + sum_contents (@length _) (Board.buildings b) +
      length (Board.inactive b) /\
    Forall (fun bd => Building.contents bd = []) (Board.buildings b') /\
    Board.inactive b' = [].
Proof.
  unfold Board.advance, Board.advance_population.
  destruct (visit_spec b rng) as (b1 & rng' & E & A & P & C & D & F).
  rewrite E. unfold Board.go_home, Board.propagate. cbn [Board.buildings Board.inactive].
  pose proof (empty_all_fst (map building_propagate (Board.buildings b1))) as Hf.
  pose proof (empty_all_snd (map building_propagate (Board.buildings b1))) as [_ Hs].
  destruct (Board.empty_all (map building_propagate (Board.buildings b1))) as [v bs'].
  simpl in *. subst v.
  eexists _, _. split; [reflexivity|]. cbn.
  unfold Population.len at 1. simpl.
  rewrite length_app, length_flat_map_contents, length_map, sum_contents_propagate_many.
  unfold Population.len in C.
  split; [lia|split; [exact Hs|reflexivity]].
Qed.

(** Over any number of days, a board that starts with empty buildings and
    an empty inactive set keeps the size of its population, and ends every
    day with empty buildings and an empty inactive set; [advance_many] never
    panics. *)
Theorem advance_many_size (n : nat) (b : Board.Board) (rng : Rng) :
  Forall (fun bd => Building.contents bd = []) (Board.buildings b) ->
  Board.inactive b = [] ->
  exists b' rng', Board.advance_many building_propagate register n b rng = Some (b', rng') /\
    Population.len (Board.population b') = Population.len (Board.population b) /\
    Forall (fun bd => Building.contents bd = []) (Board.buildings b') /\
    Board.inactive b' = [].
Proof.
  revert b rng; induction n as [|n IH]; intros b rng He Hi; simpl.
  { exists b, rng. repeat split; auto. }
  destruct (advance_day b rng) as (b1 & r1 & -> & L & He1 & Hi1).
  destruct (IH b1 r1 He1 Hi1) as (b' & r' & E & L' & He' & Hi').
  exists b', r'. split; [exact E|]. split; [|split; assumption].
  rewrite L', L, sum_contents_empty, Hi by exact He. simpl. lia.
Qed.

End ManyDays.

Lemma advance_many_size_witness :
  (forall bd, length (Building.contents (contagion_example bd)) = length (Building.contents bd)) /\
  Forall (fun bd => Building.contents bd = []) (Board.buildings small_board) /\
  Board.inactive small_board = [] /\
  exists b' rng',
    Board.advance_many contagion_example (fun _ _ r => r) 3 small_board (fun k => k) =
      Some (b', rng') /\
    Population.len (Board.population b') = Population.len (Board.population small_board) /\
    Forall (fun bd => Building.contents bd = []) (Board.buildings b') /\
    Board.inactive b' = [].
Proof.
  assert (H1 : Forall (fun bd => Building.contents bd = []) (Board.buildings small_board))
    by (simpl; repeat constructor).
  assert (H2 : Board.inactive small_board = []) by reflexivity.
  split; [exact contagion_example_cells|split; [exact H1|split; [exact H2|]]].
  exact (advance_many_size contagion_example contagion_example_cells (fun _ _ r => r)
           3 small_board (fun k => k) H1 H2).
Defined.

(** ** Opening, closing and the spreading mode *)

Lemma map_named_id (g : Building.Building -> Building.Building) (n : String.string)
  (bs : list Building.Building) :
  Forall (fun bd => Building.name bd = n -> g bd = bd) bs ->
  map (fun bd => if String.eqb (Building.name bd) n then g bd else bd) bs = bs.
Proof.
  induction 1 as [|bd t Hbd _ IH]; simpl; [reflexivity|].
  rewrite IH. destruct (String.eqb_spec (Building.name bd) n); [rewrite Hbd|]; auto.
Qed.

Lemma map_named_comp (g h : Building.Building -> Building.Building) (n : String.string)
  (bs : list Building.Building) :
  (forall bd, Building.name (g bd) = Building.name bd) ->
  map (fun bd => if String.eqb (Building.name bd) n then h bd else bd)
    (map (fun bd => if String.eqb (Building.name bd) n then g bd else bd) bs) =
  map (fun bd => if String.eqb (Building.name bd) n then h (g bd) else bd) bs.
Proof.
  intros Hg. rewrite map_map. apply map_ext. intros bd.
  destruct (String.eqb (Building.name bd) n) eqn:E; [rewrite Hg, E|rewrite E]; reflexivity.
Qed.

(** [toggle] undoes itself; [open] undoes [close] on a board whose
    buildings of that name were open, and [close] undoes [open] on one whose
    buildings of that name were closed; and a name that no building has
    leaves the board unchanged under [toggle], [close] and [open]. *)
Theorem board_toggle_close_open (b : Board.Board) (n : String.string) :
  Board.toggle (Board.toggle b n) n = b /\
  (Forall (fun bd => Building.name bd = n -> Building.open bd = true) (Board.buildings b) ->
   Board.open (Board.close b n) n = b) /\
  (Forall (fun bd => Building.name bd = n -> Building.open bd = false) (Board.buildings b) ->
   Board.close (Board.open b n) n = b) /\
  (Forall (fun bd => Building.name bd <> n) (Board.buildings b) ->
   Board.toggle b n = b /\ Board.close b n = b /\ Board.open b n = b).
Proof.
  destruct b as [p bs ina r].
  unfold Board.toggle, Board.close, Board.open, Board.set_buildings.
  cbn [Board.population Board.buildings Board.inactive Board.recording].
  split; [|split; [|split]].
  - rewrite map_named_comp by reflexivity. rewrite map_named_id; [reflexivity|].
    apply Forall_forall. intros [nm c cs o s] _ _. unfold Building.toggle. simpl.
    rewrite negb_involutive. reflexivity.
  - intros H. rewrite map_named_comp by reflexivity. rewrite map_named_id; [reflexivity|].
    revert H. apply Forall_impl. intros [nm c cs o s] Ho Hn.
    unfold Building.open', Building.close. simpl in *. rewrite (Ho Hn). reflexivity.
  - intros H. rewrite map_named_comp by reflexivity. rewrite map_named_id; [reflexivity|].
    revert H. apply Forall_impl. intros [nm c cs o s] Ho Hn.
    unfold Building.open', Building.close. simpl in *. rewrite (Ho Hn). reflexivity.
  - intros H.
    assert (Hg : forall g, Forall (fun bd => Building.name bd = n -> g bd = bd) bs).
    { intros g. revert H. apply Forall_impl. intros bd Hn Hn'. contradiction. }
    rewrite !map_named_id by apply Hg. auto.
Qed.

Lemma board_toggle_close_open_witness :
  Forall (fun bd => Building.name bd = "Bakery"%string -> Building.open bd = true)
    (Board.buildings small_board) /\
  Board.open (Board.close small_board "Bakery") "Bakery" = small_board /\
  Forall (fun bd => Building.name bd = "Bakery"%string -> Building.open bd = false)
    (Board.buildings (Board.close small_board "Bakery")) /\
  Board.close (Board.open (Board.close small_board "Bakery") "Bakery") "Bakery" =
    Board.close small_board "Bakery" /\
  Forall (fun bd => Building.name bd <> "Cafe"%string) (Board.buildings small_board) /\
  Board.close small_board "Cafe" = small_board.
Proof.
  assert (H1 : Forall (fun bd => Building.name bd = "Bakery"%string -> Building.open bd = true)
                 (Board.buildings small_board))
    by (simpl; repeat constructor).
  assert (H2 : Forall (fun bd => Building.name bd = "Bakery"%string -> Building.open bd = false)
                 (Board.buildings (Board.close small_board "Bakery")))
    by (simpl; repeat constructor).
  assert (H3 : Forall (fun bd => Building.name bd <> "Cafe"%string) (Board.buildings small_board))
    by (simpl; repeat constructor; discriminate).
  split; [exact H1|split; [exact (proj1 (proj2 (board_toggle_close_open small_board "Bakery")) H1)|]].
  split; [exact H2|split;
    [exact (proj1 (proj2 (proj2 (board_toggle_close_open (Board.close small_board "Bakery")
                                    "Bakery"))) H2)|]].
  split; [exact H3|].
  exact (proj1 (proj2 (proj2 (proj2 (proj2 (board_toggle_close_open small_board "Cafe"))) H3))).
Defined.

(** [set_spreading(mode)] gives every building the mode and changes nothing
    else of them; afterwards [spreading()] returns the mode (panicking only
    when there is no building), and [Board::new] accepts the buildings with
    any population. *)
Theorem board_set_spreading
  (recording_set_spreading : Recording.Recording -> Building.Spreading -> Recording.Recording)
  (b : Board.Board) (s : Building.Spreading) :
  let b' := Board.set_spreading recording_set_spreading b s in
  Forall (fun bd => Building.spreading bd = s) (Board.buildings b') /\
  map (fun bd => (Building.name bd, Building.capacity bd, Building.contents bd, Building.open bd))
      (Board.buildings b') =
    map (fun bd => (Building.name bd, Building.capacity bd, Building.contents bd, Building.open bd))
      (Board.buildings b) /\
  Board.spreading b' = match Board.buildings b with [] => None | _ => Some s end /\
  (forall p, Board.new p (Board.buildings b') <> None).
Proof.
  destruct b as [p0 bs ina r]. unfold Board.set_spreading.
  cbn [Board.buildings].
  split; [|split; [|split]].
  - apply Forall_forall. intros bd Hbd. apply in_map_iff in Hbd as (bd0 & <- & _). reflexivity.
  - rewrite map_map. reflexivity.
  - unfold Board.spreading. cbn [Board.buildings]. destruct bs; reflexivity.
  - intros p. unfold Board.new.
    replace (Board.option_eqb _ _) with true; [discriminate|].
    symmetry. apply min_max_eqb_spec. intros x y Hx Hy.
    rewrite map_map in Hx, Hy. apply in_map_iff in Hx as (? & <- & _).
    apply in_map_iff in Hy as (? & <- & _). reflexivity.
Qed.

(** ** Views of a report *)

Lemma all_some_map {A B : Type} (f : A -> option B) (g : A -> B) (l : list A) :
  (forall x, In x l -> f x = Some (g x)) -> Simulation.all_some (map f l) = Some (map g l).
Proof.
  induction l as [|x t IH]; intros H; simpl; [reflexivity|].
  rewrite (H x (or_introl eq_refl)), IH; [reflexivity|].
  intros y Hy. apply H. right. exact Hy.
Qed.

Lemma all_some_none {A B : Type} (f : A -> option B) (l : list A) (x : A) :
  In x l -> f x = None -> Simulation.all_some (map f l) = None.
Proof.
  induction l as [|y t IH]; intros Hx Hf; simpl in *; [contradiction|].
  destruct Hx as [<-|Hx].
  - rewrite Hf. reflexivity.
  - destruct (f y); [|reflexivity]. rewrite (IH Hx Hf). reflexivity.
Qed.

Lemma last_cons_default (x d : nat) (t : list nat) : last (x :: t) d = last t x.
Proof.
  revert x d; induction t as [|y t IH]; intros x d; [reflexivity|].
  change (last (x :: y :: t) d) with (last (y :: t) d). rewrite !IH. reflexivity.
Qed.

(** [healthy_last()] returns the last Healthy count of every realization
    when none of them is empty, and panics as soon as one is empty. *)
Theorem healthy_last_spec (r : Simulation.Report) :
  ((forall v, In v (Simulation.healthy r) -> v <> []) ->
   Simulation.healthy_last r = Some (map (fun v => last v 0) (Simulation.healthy r))) /\
  (In [] (Simulation.healthy r) -> Simulation.healthy_last r = None).
Proof.
  unfold Simulation.healthy_last. split.
  - intros H. apply all_some_map. intros [|x t] Hv; [exfalso; exact (H _ Hv eq_refl)|].
    rewrite last_cons_default. reflexivity.
  - intros H. apply (all_some_none _ _ [] H). reflexivity.
Qed.

Lemma healthy_last_spec_witness :
  (forall v, In v (Simulation.healthy (Simulation.mkReport
     [map (fun i => (i, [0; 3])) Individual_iter; map (fun i => (i, [1; 2])) Individual_iter]))
     -> v <> []) /\
  Simulation.healthy_last (Simulation.mkReport
     [map (fun i => (i, [0; 3])) Individual_iter; map (fun i => (i, [1; 2])) Individual_iter]) =
    Some [3; 2] /\
  In [] (Simulation.healthy (Simulation.mkReport
     [map (fun i => (i, [0; 3])) Individual_iter; map (fun i => (i, [])) Individual_iter])) /\
  Simulation.healthy_last (Simulation.mkReport
     [map (fun i => (i, [0; 3])) Individual_iter; map (fun i => (i, [])) Individual_iter]) = None.
Proof.
  assert (H1 : forall v, In v (Simulation.healthy (Simulation.mkReport
     [map (fun i => (i, [0; 3])) Individual_iter; map (fun i => (i, [1; 2])) Individual_iter]))
     -> v <> []).
  { simpl. intros v [<-|[<-|[]]]; discriminate. }
  assert (H2 : In [] (Simulation.healthy (Simulation.mkReport
     [map (fun i => (i, [0; 3])) Individual_iter; map (fun i => (i, [])) Individual_iter])))
    by (simpl; tauto).
  split; [exact H1|split; [exact (proj1 (healthy_last_spec _) H1)|]].
  split; [exact H2|exact (proj2 (healthy_last_spec _) H2)].
Defined.

(** For a report whose first table spans [d] days, [healthy_transpose()]
    and [average_healthy()] return, for each of the [d] days, the Healthy
    count of that day in every realization, when every realization covers
    the [d] days; both panic when some realization is shorter. *)
Theorem healthy_transpose_spec (r : Simulation.Report) (ct0 : CountingTable)
  (rest : list CountingTable) :
  Simulation.counting_tables r = ct0 :: rest ->
  (Forall (fun v => ct_days ct0 <= length v) (Simulation.healthy r) ->
   Simulation.healthy_transpose r =
     Some (map (fun day => map (fun v => nth day v 0) (Simulation.healthy r))
               (seq 0 (ct_days ct0))) /\
   Simulation.average_healthy r = Simulation.healthy_transpose r) /\
  (Exists (fun v => length v < ct_days ct0) (Simulation.healthy r) ->
   Simulation.healthy_transpose r = None /\ Simulation.average_healthy r = None).
Proof.
  intros Hr. unfold Simulation.healthy_transpose, Simulation.average_healthy.
  rewrite Hr. cbn [nth_error]. split.
  - intros H. split; [|reflexivity].
    apply all_some_map. intros day Hday. apply in_seq in Hday.
    apply all_some_map. intros v Hv.
    rewrite Forall_forall in H. specialize (H v Hv).
    apply nth_error_nth'. lia.
  - intros H. apply Exists_exists in H as (v & Hv & Hl).
    assert (E : Simulation.all_some (map (fun day => Simulation.all_some
                  (map (fun r => nth_error r day) (Simulation.healthy r)))
                  (seq 0 (ct_days ct0))) = None).
    { apply (all_some_none _ _ (length v)); [apply in_seq; lia|].
      apply (all_some_none _ _ v Hv). apply nth_error_None. lia. }
    rewrite E. auto.
Qed.

Lemma healthy_transpose_spec_witness :
  Simulation.counting_tables (Simulation.mkReport
    [map (fun i => (i, [0; 0])) Individual_iter; map (fun i => (i, [1; 2])) Individual_iter]) =
    map (fun i => (i, [0; 0])) Individual_iter :: [map (fun i => (i, [1; 2])) Individual_iter] /\
  Forall (fun v => ct_days (map (fun i => (i, [0; 0])) Individual_iter) <= length v)
    (Simulation.healthy (Simulation.mkReport
      [map (fun i => (i, [0; 0])) Individual_iter; map (fun i => (i, [1; 2])) Individual_iter])) /\
  Simulation.healthy_transpose (Simulation.mkReport
    [map (fun i => (i, [0; 0])) Individual_iter; map (fun i => (i, [1; 2])) Individual_iter]) =
    Some [[0; 1]; [0; 2]] /\
  Exists (fun v => length v < ct_days (map (fun i => (i, [0; 0])) Individual_iter))
    (Simulation.healthy (Simulation.mkReport
      [map (fun i => (i, [0; 0])) Individual_iter; map (fun i => (i, [1])) Individual_iter])) /\
  Simulation.average_healthy (Simulation.mkReport
    [map (fun i => (i, [0; 0])) Individual_iter; map (fun i => (i, [1])) Individual_iter]) = None.
Proof.
  assert (H0 : Simulation.counting_tables (Simulation.mkReport
    [map (fun i => (i, [0; 0])) Individual_iter; map (fun i => (i, [1; 2])) Individual_iter]) =
    map (fun i => (i, [0; 0])) Individual_iter :: [map (fun i => (i, [1; 2])) Individual_iter])
    by reflexivity.
  assert (H1 : Forall (fun v => ct_days (map (fun i => (i, [0; 0])) Individual_iter) <= length v)
    (Simulation.healthy (Simulation.mkReport
      [map (fun i => (i, [0; 0])) Individual_iter; map (fun i => (i, [1; 2])) Individual_iter])))
    by (simpl; repeat constructor).
  assert (H2 : Exists (fun v => length v < ct_days (map (fun i => (i, [0; 0])) Individual_iter))
    (Simulation.healthy (Simulation.mkReport
      [map (fun i => (i, [0; 0])) Individual_iter; map (fun i => (i, [1])) Individual_iter])))
    by (simpl; apply Exists_cons_tl; apply Exists_cons_hd; simpl; lia).
  split; [exact H0|split; [exact H1|]].
  split; [rewrite (proj1 (proj1 (healthy_transpose_spec _ _ _ H0) H1)); reflexivity|].
  split; [exact H2|].
  exact (proj2 (proj2 (healthy_transpose_spec (Simulation.mkReport
    [map (fun i => (i, [0; 0])) Individual_iter; map (fun i => (i, [1])) Individual_iter]) _ _
    eq_refl) H2)).
Defined.

Lemma Individual_iter_index (s : Individual) :
  exists row, row < length Individual_iter /\ nth row Individual_iter Healthy = s.
Proof.
  destruct s; [exists 0|exists 1|exists 2|exists 3|exists 4|exists 5]; split; simpl; auto; lia.
Qed.

(** For a report whose first table spans [d] days,
    [average_counting_table()] has one row per state and [d] columns, the
    cell of state [s] and day [t] collecting the count of [s] on day [t] of
    every table, when every table has a row of at least [d] days for every
    state; it panics as soon as [d > 0] and some table lacks a state or
    has a shorter row for it. *)
Theorem average_counting_table_spec (r : Simulation.Report) (ct0 : CountingTable)
  (rest : list CountingTable) :
  Simulation.counting_tables r = ct0 :: rest ->
  ((forall ct s, In ct (Simulation.counting_tables r) ->
      exists v, ct_get ct s = Some v /\ ct_days ct0 <= length v) ->
   Simulation.average_counting_table r =
     Some (map (fun row => map (fun col => map (fun ct =>
             match ct_get ct (nth row Individual_iter Healthy) with
             | Some v => nth col v 0
             | None => 0
             end) (Simulation.counting_tables r))
           (seq 0 (ct_days ct0))) (seq 0 (length Individual_iter)))) /\
  ((exists ct s, In ct (Simulation.counting_tables r) /\ 0 < ct_days ct0 /\
      match ct_get ct s with Some v => length v < ct_days ct0 | None => True end) ->
   Simulation.average_counting_table r = None).
Proof.
  intros Hr. unfold Simulation.average_counting_table. rewrite Hr. split.
  - intros H.
    apply all_some_map. intros row _.
    apply all_some_map. intros col Hcol. apply in_seq in Hcol.
    apply all_some_map. intros ct Hct.
    destruct (H ct (nth row Individual_iter Healthy) Hct) as (v & Ev & Hv).
    unfold Simulation.ct_cell. rewrite Ev. apply nth_error_nth'. lia.
  - intros (ct & s & Hct & Hd & Hs).
    destruct (Individual_iter_index s) as (row & Hrow & Es).
    set (col := match ct_get ct s with Some v => length v | None => 0 end).
    apply (all_some_none _ _ row); [apply in_seq; lia|].
    apply (all_some_none _ _ col).
    { apply in_seq. unfold col. destruct (ct_get ct s); lia. }
    apply (all_some_none _ _ ct Hct).
    unfold Simulation.ct_cell. rewrite Es. unfold col.
    destruct (ct_get ct s); [apply nth_error_None; lia|reflexivity].
Qed.

Lemma average_counting_table_spec_witness :
  (forall ct s, In ct [map (fun i => (i, [0; 4])) Individual_iter;
                       map (fun i => (i, [1; 2])) Individual_iter] ->
     exists v, ct_get ct s = Some v /\
               ct_days (map (fun i => (i, [0; 4])) Individual_iter) <= length v) /\
  Simulation.average_counting_table (Simulation.mkReport
    [map (fun i => (i, [0; 4])) Individual_iter; map (fun i => (i, [1; 2])) Individual_iter]) =
    Some (repeat [[0; 1]; [4; 2]] 6) /\
  Simulation.average_counting_table (Simulation.mkReport
    [map (fun i => (i, [0; 4])) Individual_iter; [(Healthy, [1; 2])]]) = None.
Proof.
  assert (H1 : forall ct s, In ct [map (fun i => (i, [0; 4])) Individual_iter;
                                   map (fun i => (i, [1; 2])) Individual_iter] ->
     exists v, ct_get ct s = Some v /\
               ct_days (map (fun i => (i, [0; 4])) Individual_iter) <= length v).
  { intros ct s [<-|[<-|[]]]; destruct s; eexists; split; try reflexivity; simpl; lia. }
  split; [exact H1|split].
  - rewrite (proj1 (average_counting_table_spec (Simulation.mkReport
      [map (fun i => (i, [0; 4])) Individual_iter; map (fun i => (i, [1; 2])) Individual_iter])
      _ _ eq_refl) H1). reflexivity.
  - apply (proj2 (average_counting_table_spec (Simulation.mkReport
      [map (fun i => (i, [0; 4])) Individual_iter; [(Healthy, [1; 2])]]) _ _ eq_refl)).
    exists [(Healthy, [1; 2])], Sick. simpl. auto.
Defined.
